(** * Machine Efficiency Tracker: the metrics computation layer

    A shallow embedding of [utils/calculations.py] (class
    [EfficiencyCalculator]) together with the properties its
    specification states about it.

    Modelling conventions.
    - A pandas [DataFrame] is the list of its rows, each row a record of
      the columns the storage layer creates ([database/db_handler.py]).
      The failure frame additionally carries the optional derived column
      ['date'], because one operation assigns it in place.
    - The numeric columns [duration_minutes] and [downtime_minutes] and
      every real-valued result are exact rationals ([Q]); numeric
      equality ([==] of Python) is [Qeq].  Binary64 rounding error of the
      interpreter's floats is outside the model.
    - [round(x, 2)] and [Series.round(2)] round to the nearest multiple
      of 1/100, ties to the even neighbour.
    - A [dict] and a grouped [Series] are finite maps ([gmap]).

    After the calculator come the storage handler
    ([database/db_handler.py]) and the sample data generator
    ([utils/data_generator.py]).
    - The SQLite database is the state of its three tables, passed from
      call to call; [CURRENT_TIMESTAMP] is an argument of each insert.
      Dates and timestamps are compared field by field, which is how the
      text comparison of their ISO forms orders them.
    - The values the [random] module returns are arguments of the
      generator. *)

From Stdlib Require Import ZArith QArith Qround Qabs Qminmax Lqa Lia.
From Stdlib Require Import Ascii DecimalString DecimalNat.
From stdpp Require Import gmap strings list fin_maps sorting.

Local Open Scope Q_scope.

(** ** Rounding to two decimal places *)

Definition round_half_even (x : Q) : Z :=
  let f := Qfloor x in
  match Qcompare (x - inject_Z f) (1 # 2) with
  | Lt => f
  | Gt => (f + 1)%Z
  | Eq => if Z.even f then f else (f + 1)%Z
  end.

Definition round2 (x : Q) : Q :=
  inject_Z (round_half_even (x * 100)) / 100.

(** ** Data model *)

(** A calendar date and a point in time.  Timestamps reach the core
    already well formed; [ts_date] is the date component that
    [pd.to_datetime(...).dt.date] extracts, taken as it is. *)
Record Date := mkDate { year : Z; month : Z; day : Z }.

Record Timestamp := mkTimestamp { ts_date : Date; ts_seconds : Z }.

#[global] Instance Date_eq_dec : EqDecision Date.
Proof. solve_decision. Defined.

#[global] Instance Date_countable : Countable Date.
Proof.
  refine (inj_countable' (fun d => (year d, month d, day d))
                         (fun t => mkDate t.1.1 t.1.2 t.2) _).
  intros []; reflexivity.
Defined.

(** A row of table [machine_logs]. *)
Module StatusLog.
Record t := mk {
  machine_id : string;
  status : string;
  timestamp : Timestamp;
  duration_minutes : Q;
  production_count : Z;
  notes : string
}.
End StatusLog.

(** A row of table [failures]. *)
Module FailureLog.
Record t := mk {
  machine_id : string;
  failure_type : string;
  timestamp : Timestamp;
  downtime_minutes : Q;
  resolution : string
}.
End FailureLog.

(** A data frame: the rows read from storage and, when it has been
    assigned, the extra column ['date'] (one cell per row).  A frame is a
    mutable object shared with the caller, so an operation that assigns a
    column returns the frame it leaves behind. *)
Record DataFrame (R : Type) := mkFrame {
  rows : list R;
  date_column : option (list Date)
}.
Arguments mkFrame {R} _ _.
Arguments rows {R} _.
Arguments date_column {R} _.

(** The frame a query returns: storage columns only. *)
Definition frame_of {R : Type} (l : list R) : DataFrame R := mkFrame l None.

(** [df.empty] *)
Definition empty_frame {R : Type} (df : DataFrame R) : bool :=
  match rows df with [] => true | _ => false end.

(** [df[col].sum()] for a real-valued and for an integer column. *)
Definition col_sum {R : Type} (col : R -> Q) (l : list R) : Q :=
  foldr (fun r acc => col r + acc) 0 l.

Definition col_sum_int {R : Type} (col : R -> Z) (l : list R) : Z :=
  foldr (fun r acc => (col r + acc)%Z) 0%Z l.

(** [df.groupby(key)[col].sum()]: one entry per distinct key. *)
Definition groupby_sum {R K : Type} `{Countable K}
    (key : R -> K) (col : R -> Q) (l : list R) : gmap K Q :=
  foldr (fun r m => <[key r := default 0 (m !! key r) + col r]> m) ∅ l.

(** [series.groupby(...).size()] over a column of keys. *)
Definition groupby_size {K : Type} `{Countable K} (keys : list K) : gmap K nat :=
  foldr (fun k m => <[k := S (default O (m !! k))]> m) ∅ keys.

(** Sum, maximum and number of the values of a grouped series. *)
Definition sum_values {K : Type} `{Countable K} (m : gmap K Q) : Q :=
  map_fold (fun _ v acc => v + acc) 0 m.

Definition sum_counts {K : Type} `{Countable K} (m : gmap K nat) : nat :=
  map_fold (fun _ v acc => (v + acc)%nat) O m.

Definition max_counts {K : Type} `{Countable K} (m : gmap K nat) : nat :=
  map_fold (fun _ v acc => Nat.max v acc) O m.

(** ** Result structures *)

Record DailyFailureRate := mkDailyFailureRate {
  avg_failures_per_day : Q;
  total_failures : nat;
  max_failures_per_day : nat;
  days_tracked : nat
}.

Record Productivity := mkProductivity {
  total_production : Z;
  production_per_hour : Q;
  total_runtime_hours : Q;
  total_runtime_minutes : Q
}.

Record OEE := mkOEE {
  availability : Q;
  performance : Q;
  quality : Q;
  oee : Q
}.

(** ** The calculator *)

Module EfficiencyCalculator.

Abbreviation StatusLogs := (DataFrame StatusLog.t).
Abbreviation FailureLogs := (DataFrame FailureLog.t).

(** [logs_df[logs_df['status'] == s]] and
    [logs_df[logs_df['status'].isin(ss)]] *)
Definition with_status (s : string) (l : list StatusLog.t) : list StatusLog.t :=
  filter (fun r => StatusLog.status r = s) l.

Definition with_status_in (ss : list string) (l : list StatusLog.t)
    : list StatusLog.t :=
  filter (fun r => StatusLog.status r ∈ ss) l.

(** The four sums the percentage functions bind to local names. *)
Definition total_time (logs_df : StatusLogs) : Q :=
  col_sum StatusLog.duration_minutes (rows logs_df).

Definition running_time (logs_df : StatusLogs) : Q :=
  col_sum StatusLog.duration_minutes (with_status "RUNNING" (rows logs_df)).

Definition idle_time (logs_df : StatusLogs) : Q :=
  col_sum StatusLog.duration_minutes (with_status "IDLE" (rows logs_df)).

Definition downtime (logs_df : StatusLogs) : Q :=
  col_sum StatusLog.duration_minutes
    (with_status_in ["FAILED"; "MAINTENANCE"] (rows logs_df)).

Definition calculate_running_time_percentage (logs_df : StatusLogs) : Q :=
  if empty_frame logs_df then 0
  else if Qeq_dec (total_time logs_df) 0 then 0
  else (running_time logs_df / total_time logs_df) * 100.

Definition calculate_idle_time_percentage (logs_df : StatusLogs) : Q :=
  if empty_frame logs_df then 0
  else if Qeq_dec (total_time logs_df) 0 then 0
  else (idle_time logs_df / total_time logs_df) * 100.

Definition calculate_downtime_percentage (logs_df : StatusLogs) : Q :=
  if empty_frame logs_df then 0
  else if Qeq_dec (total_time logs_df) 0 then 0
  else (downtime logs_df / total_time logs_df) * 100.

(** [failures_df['date'] = ...] assigns the column on the caller's
    frame, so the frame after the call is part of the result. *)
Definition calculate_daily_failure_rate (failures_df : FailureLogs)
    : DailyFailureRate * FailureLogs :=
  if empty_frame failures_df then
    (mkDailyFailureRate 0 0 0 0, failures_df)
  else
    let dates := map (fun r => ts_date (FailureLog.timestamp r)) (rows failures_df) in
    let failures_df := mkFrame (rows failures_df) (Some dates) in
    let daily_counts := groupby_size dates in
    let mean := inject_Z (Z.of_nat (sum_counts daily_counts))
                / inject_Z (Z.of_nat (size daily_counts)) in
    (mkDailyFailureRate (round2 mean)
                        (length (rows failures_df))
                        (max_counts daily_counts)
                        (size daily_counts),
     failures_df).

Definition calculate_productivity (logs_df : StatusLogs) : Productivity :=
  if empty_frame logs_df then mkProductivity 0 0 0 0
  else
    let running_logs := with_status "RUNNING" (rows logs_df) in
    let total_production := col_sum_int StatusLog.production_count running_logs in
    let total_runtime_minutes := col_sum StatusLog.duration_minutes running_logs in
    let total_runtime_hours := total_runtime_minutes / 60 in
    let production_per_hour :=
      if Qlt_le_dec 0 total_runtime_hours
      then inject_Z total_production / total_runtime_hours else 0 in
    mkProductivity total_production
                   (round2 production_per_hour)
                   (round2 total_runtime_hours)
                   (round2 total_runtime_minutes).

(** The local values of [calculate_oee] before capping and rounding. *)
Definition oee_total_downtime (failures_df : FailureLogs) : Q :=
  if empty_frame failures_df then 0
  else col_sum FailureLog.downtime_minutes (rows failures_df).

Definition oee_operating_time (failures_df : FailureLogs)
    (planned_production_time : Q) : Q :=
  planned_production_time - oee_total_downtime failures_df.

Definition oee_availability (failures_df : FailureLogs)
    (planned_production_time : Q) : Q :=
  if Qlt_le_dec 0 planned_production_time
  then oee_operating_time failures_df planned_production_time
       / planned_production_time * 100
  else 0.

Definition oee_actual_production (logs_df : StatusLogs) : Z :=
  col_sum_int StatusLog.production_count (with_status "RUNNING" (rows logs_df)).

Definition oee_target_production (failures_df : FailureLogs)
    (ideal_cycle_time planned_production_time : Q) : Q :=
  if Qlt_le_dec 0 ideal_cycle_time
  then oee_operating_time failures_df planned_production_time / ideal_cycle_time
  else 0.

Definition oee_performance (logs_df : StatusLogs) (failures_df : FailureLogs)
    (ideal_cycle_time planned_production_time : Q) : Q :=
  let target_production :=
    oee_target_production failures_df ideal_cycle_time planned_production_time in
  if Qlt_le_dec 0 target_production
  then inject_Z (oee_actual_production logs_df) / target_production * 100
  else 0.

Definition calculate_oee (logs_df : StatusLogs) (failures_df : FailureLogs)
    (ideal_cycle_time planned_production_time : Q) : OEE :=
  if empty_frame logs_df then mkOEE 0 0 100 0
  else
    let availability := oee_availability failures_df planned_production_time in
    let performance :=
      oee_performance logs_df failures_df ideal_cycle_time planned_production_time in
    let quality := 100 in
    let oee := (availability * performance * quality) / 10000 in
    mkOEE (round2 (Qmin availability 100))
          (round2 (Qmin performance 100))
          (round2 quality)
          (round2 oee).

Definition calculate_mtbf (failures_df : FailureLogs) (total_runtime_hours : Q) : Q :=
  if empty_frame failures_df then 0
  else if Qeq_dec total_runtime_hours 0 then 0
  else
    let num_failures := length (rows failures_df) in
    let mtbf := total_runtime_hours / inject_Z (Z.of_nat num_failures) in
    round2 mtbf.

Definition calculate_mttr (failures_df : FailureLogs) : Q :=
  if empty_frame failures_df then 0
  else
    let total_downtime_minutes :=
      col_sum FailureLog.downtime_minutes (rows failures_df) in
    let num_failures := length (rows failures_df) in
    let mttr_hours :=
      (total_downtime_minutes / 60) / inject_Z (Z.of_nat num_failures) in
    round2 mttr_hours.

(** The series [status_time / total_time * 100] before [.round(2)]. *)
Definition status_share (logs_df : StatusLogs) : gmap string Q :=
  let status_time :=
    groupby_sum StatusLog.status StatusLog.duration_minutes (rows logs_df) in
  (fun t => t / total_time logs_df * 100) <$> status_time.

Definition get_status_distribution (logs_df : StatusLogs) : gmap string Q :=
  if empty_frame logs_df then ∅
  else if Qeq_dec (total_time logs_df) 0 then ∅
  else round2 <$> status_share logs_df.

End EfficiencyCalculator.

Import EfficiencyCalculator.

(** ** Status vocabularies and worked inputs *)

(** The status codes of [config.MACHINE_STATUS] (its display labels are a
    presentation matter). *)
Definition MACHINE_STATUS : list string :=
  ["RUNNING"; "IDLE"; "MAINTENANCE"; "FAILED"; "OFFLINE"].

(** The statuses some percentage function counts in its numerator. *)
Definition tracked_statuses : list string :=
  ["RUNNING"; "IDLE"; "FAILED"; "MAINTENANCE"].

(** Rows and frames for the worked examples. *)
Definition noon : Timestamp := mkTimestamp (mkDate 2024 1 15) 43200.

Definition log_row (s : string) (d : Q) (p : Z) : StatusLog.t :=
  StatusLog.mk "M001" s noon d p "".

Definition failure_row (d : Q) : FailureLog.t :=
  FailureLog.mk "M001" "Mechanical" noon d "".

Definition failure_on (d : Date) : FailureLog.t :=
  FailureLog.mk "M001" "Electrical" (mkTimestamp d 3600) 45 "".


(** Scenario 3: three failures on one day and one on the next, unsorted. *)
Definition two_day_failures : FailureLogs :=
  frame_of [failure_on (mkDate 2024 1 15); failure_on (mkDate 2024 1 16);
            failure_on (mkDate 2024 1 15); failure_on (mkDate 2024 1 15)].

(** Scenario 4, and the same shift with ten times the production. *)
Definition shift_logs : StatusLogs := frame_of [log_row "RUNNING" 120 100].
Definition busy_shift_logs : StatusLogs := frame_of [log_row "RUNNING" 120 1000].
Definition one_failure : FailureLogs := frame_of [failure_row 30].

(** Scenario 5, and further failure collections. *)
Definition two_failures : FailureLogs := frame_of [failure_row 30; failure_row 90].
Definition no_failures : FailureLogs := frame_of [].
Definition split_failure : FailureLogs := frame_of [failure_row 10; failure_row 20].

Definition zero_duration_logs : StatusLogs := frame_of [log_row "RUNNING" 0 5].
Definition idle_only_logs : StatusLogs := frame_of [log_row "IDLE" 50 7].

Definition mixed_logs : StatusLogs :=
  frame_of [log_row "RUNNING" 100 40; log_row "IDLE" 100 0; log_row "OFFLINE" 100 0].

Definition unknown_status_logs : StatusLogs :=
  frame_of [log_row "RUNNING" 60 10; log_row "CALIBRATING" 40 0].

(** ** Further worked inputs *)

Definition zero_frame_example : StatusLogs :=
  frame_of [log_row "RUNNING" 0 3; log_row "IDLE" 0 0].


Definition two_day_failures_swapped : FailureLogs :=
  frame_of [failure_on (mkDate 2024 1 15); failure_on (mkDate 2024 1 15);
            failure_on (mkDate 2024 1 16); failure_on (mkDate 2024 1 15)].

(** ** Storage ([database/db_handler.py]) *)

Module DatabaseHandler.

(** A row of table [machines]. *)
Record Machine := mkMachine {
  machine_id : string;
  machine_name : string;
  machine_type : string;
  location : string;
  created_at : Timestamp
}.

(** The three tables, rows in insertion order, each log and failure row
    with its [AUTOINCREMENT] key, and the largest key each of the two
    tables has handed out. *)
Record Database := mkDatabase {
  machines : list Machine;
  machine_logs : list (Z * StatusLog.t);
  failures : list (Z * FailureLog.t);
  log_seq : Z;
  failure_seq : Z
}.

(** [init_database] on a new file. *)
Definition init_database : Database := mkDatabase [] [] [] 0 0.

(** [INSERT OR REPLACE INTO machines]: a row with the same primary key is
    removed before the new row is stored; [created_at] takes the
    current time. *)
Definition add_machine (now : Timestamp)
    (machine_id machine_name machine_type location : string) (db : Database)
    : Database :=
  mkDatabase
    (filter (fun m => DatabaseHandler.machine_id m <> machine_id) (machines db)
     ++ [mkMachine machine_id machine_name machine_type location now])
    (machine_logs db) (failures db) (log_seq db) (failure_seq db).

(** [INSERT INTO machine_logs]: the key is one more than the largest
    handed out so far, [timestamp] takes the current time.  The schema's
    foreign key is declared but never switched on by the handler, so the
    machine need not exist. *)
Definition log_machine_status (now : Timestamp) (machine_id status : string)
    (duration_minutes : Q) (production_count : Z) (notes : string)
    (db : Database) : Database :=
  let log_id := (log_seq db + 1)%Z in
  mkDatabase
    (machines db)
    (machine_logs db
     ++ [(log_id, StatusLog.mk machine_id status now duration_minutes
                               production_count notes)])
    (failures db) log_id (failure_seq db).

Definition log_failure (now : Timestamp) (machine_id failure_type : string)
    (downtime_minutes : Q) (resolution : string) (db : Database) : Database :=
  let failure_id := (failure_seq db + 1)%Z in
  mkDatabase
    (machines db) (machine_logs db)
    (failures db
     ++ [(failure_id, FailureLog.mk machine_id failure_type now downtime_minutes
                                    resolution)])
    (log_seq db) failure_id.

(** Comparison of dates and of timestamps, as the text comparison of
    their ISO forms orders them. *)
Definition date_lt (d1 d2 : Date) : Prop :=
  (year d1 < year d2)%Z
  \/ (year d1 = year d2
      /\ ((month d1 < month d2)%Z
          \/ (month d1 = month d2 /\ (day d1 < day d2)%Z))).

Definition date_le (d1 d2 : Date) : Prop := date_lt d1 d2 \/ d1 = d2.

Definition timestamp_le (t1 t2 : Timestamp) : Prop :=
  date_lt (ts_date t1) (ts_date t2)
  \/ (ts_date t1 = ts_date t2 /\ (ts_seconds t1 <= ts_seconds t2)%Z).

#[global] Instance date_lt_dec : RelDecision date_lt.
Proof. intros d1 d2. unfold date_lt. apply _. Defined.

#[global] Instance date_le_dec : RelDecision date_le.
Proof. intros d1 d2. unfold date_le. apply _. Defined.

#[global] Instance timestamp_le_dec : RelDecision timestamp_le.
Proof. intros t1 t2. unfold timestamp_le. apply _. Defined.

(** The [WHERE] clause the two queries build: a condition is added only
    for an argument that is given and, for the machine id, not the empty
    string ([if machine_id:]). *)
Definition selected (machine_id : option string) (start_date end_date : option Date)
    (row_machine : string) (row_time : Timestamp) : Prop :=
  match machine_id with
  | Some m => m = "" \/ row_machine = m
  | None => True
  end
  /\ match start_date with
     | Some d => date_le d (ts_date row_time)
     | None => True
     end
  /\ match end_date with
     | Some d => date_le (ts_date row_time) d
     | None => True
     end.

#[global] Instance selected_dec m s e rm rt : Decision (selected m s e rm rt).
Proof. unfold selected. destruct m, s, e; apply _. Defined.

(** [ORDER BY timestamp DESC] *)
Definition newest_first {A : Type} (time : A -> Timestamp) (r1 r2 : A) : Prop :=
  timestamp_le (time r2) (time r1).

#[global] Instance newest_first_dec {A : Type} (time : A -> Timestamp) :
  RelDecision (newest_first time).
Proof. intros r1 r2. unfold newest_first. apply _. Defined.

Definition get_machine_logs (machine_id : option string)
    (start_date end_date : option Date) (db : Database)
    : list (Z * StatusLog.t) :=
  merge_sort (newest_first (fun r => StatusLog.timestamp r.2))
    (filter (fun r => selected machine_id start_date end_date
                        (StatusLog.machine_id r.2) (StatusLog.timestamp r.2))
            (machine_logs db)).

Definition get_failures (machine_id : option string)
    (start_date end_date : option Date) (db : Database)
    : list (Z * FailureLog.t) :=
  merge_sort (newest_first (fun r => FailureLog.timestamp r.2))
    (filter (fun r => selected machine_id start_date end_date
                        (FailureLog.machine_id r.2) (FailureLog.timestamp r.2))
            (failures db)).

(** [SELECT * FROM machines ORDER BY machine_id] *)
Definition machine_id_le (m1 m2 : Machine) : Prop :=
  String.leb (machine_id m1) (machine_id m2) = true.

#[global] Instance machine_id_le_dec : RelDecision machine_id_le.
Proof. intros m1 m2. unfold machine_id_le. apply _. Defined.

Definition get_all_machines (db : Database) : list Machine :=
  merge_sort machine_id_le (machines db).

Definition delete_machine (machine_id : string) (db : Database) : Database :=
  mkDatabase
    (filter (fun m => DatabaseHandler.machine_id m <> machine_id) (machines db))
    (filter (fun r => StatusLog.machine_id r.2 <> machine_id) (machine_logs db))
    (filter (fun r => FailureLog.machine_id r.2 <> machine_id) (failures db))
    (log_seq db) (failure_seq db).

(** The frames the calculator receives: the columns it reads. *)
Definition logs_frame (result : list (Z * StatusLog.t)) : DataFrame StatusLog.t :=
  frame_of (result.*2).

Definition failures_frame (result : list (Z * FailureLog.t))
    : DataFrame FailureLog.t :=
  frame_of (result.*2).

(** The handler's state-changing calls, and a session of them. *)
Inductive Call :=
| AddMachine (now : Timestamp) (machine_id machine_name machine_type location : string)
| LogMachineStatus (now : Timestamp) (machine_id status : string)
    (duration_minutes : Q) (production_count : Z) (notes : string)
| LogFailure (now : Timestamp) (machine_id failure_type : string)
    (downtime_minutes : Q) (resolution : string)
| DeleteMachine (machine_id : string).

Definition perform (c : Call) (db : Database) : Database :=
  match c with
  | AddMachine now i n t l => add_machine now i n t l db
  | LogMachineStatus now i s d p n => log_machine_status now i s d p n db
  | LogFailure now i t d r => log_failure now i t d r db
  | DeleteMachine i => delete_machine i db
  end.

Definition session (calls : list Call) : Database :=
  foldl (fun db c => perform c db) init_database calls.

End DatabaseHandler.

(** What every state of the handler satisfies: machine ids are unique,
    and so are the keys of the log and failure rows, which lie between 1
    and the largest key handed out, itself not negative. *)
Definition well_formed (db : DatabaseHandler.Database) : Prop :=
  NoDup (DatabaseHandler.machine_id <$> DatabaseHandler.machines db)
  /\ NoDup (DatabaseHandler.machine_logs db).*1
  /\ Forall (fun r => (0 < r.1 <= DatabaseHandler.log_seq db)%Z)
            (DatabaseHandler.machine_logs db)
  /\ NoDup (DatabaseHandler.failures db).*1
  /\ Forall (fun r => (0 < r.1 <= DatabaseHandler.failure_seq db)%Z)
            (DatabaseHandler.failures db)
  /\ (0 <= DatabaseHandler.log_seq db)%Z
  /\ (0 <= DatabaseHandler.failure_seq db)%Z.

(** The dashboard's status cell ([app.py]): the status of the first row
    of the machine's logs, OFFLINE when there is none. *)
Definition latest_status (machine_logs : list (Z * StatusLog.t)) : string :=
  match machine_logs with
  | [] => "OFFLINE"
  | r :: _ => StatusLog.status r.2
  end.

(** A session for the worked examples. *)
Definition morning : Timestamp := mkTimestamp (mkDate 2024 1 15) 28800.
Definition evening : Timestamp := mkTimestamp (mkDate 2024 1 15) 72000.
Definition next_day : Timestamp := mkTimestamp (mkDate 2024 1 16) 28800.

Definition sample_session : DatabaseHandler.Database :=
  DatabaseHandler.session
    [DatabaseHandler.AddMachine morning "M001" "CNC Machine 1" "CNC" "Floor A";
     DatabaseHandler.AddMachine morning "M002" "Lathe Machine 2" "Lathe" "Floor B";
     DatabaseHandler.LogMachineStatus morning "M001" "RUNNING" 60 10 "";
     DatabaseHandler.LogMachineStatus next_day "M002" "IDLE" 30 0 "";
     DatabaseHandler.LogMachineStatus evening "M001" "IDLE" 20 0 "";
     DatabaseHandler.LogFailure evening "M001" "Material Jam" 15 "Cleared jam"].

(** ** Sample data generation ([utils/data_generator.py]) *)

Module DataGenerator.

(** The tables of the generator. *)
Definition machine_types : list string :=
  ["CNC"; "Lathe"; "Mill"; "Press"; "Assembly"; "Packaging"].

Definition locations : list string :=
  ["Floor A, Section 1"; "Floor A, Section 2"; "Floor B, Section 1";
   "Floor B, Section 2"; "Warehouse"; "Assembly Line"].

Definition failure_types : list string :=
  ["Mechanical Failure"; "Electrical Issue"; "Sensor Malfunction";
   "Software Error"; "Overheating"; "Calibration Error";
   "Material Jam"; "Power Outage"].

Definition resolutions : list string :=
  ["Replaced part"; "Reset system"; "Cleaned sensors";
   "Updated software"; "Cooled down system"; "Recalibrated";
   "Cleared jam"; "Restored power"].

Definition status_choices : list string :=
  ["RUNNING"; "RUNNING"; "RUNNING"; "RUNNING";
   "IDLE"; "IDLE"; "MAINTENANCE"; "FAILED"].

(** [random.uniform(a, b)] is [a + (b-a) * random()], with [random()] in
    [0, 1); [random.choice(seq)] is [seq[i]] for an index [i] below
    [len(seq)].  The values the random module returns are inputs of the
    model. *)
Definition uniform (a b u : Q) : Q := a + (b - a) * u.

Definition choice (seq : list string) (i : nat) : string := nth i seq "".

(** [f"{i}"] and [f"{i:03d}"] *)
Definition decimal (i : nat) : string := NilEmpty.string_of_uint (Nat.to_uint i).

Fixpoint zeros (k : nat) : string :=
  match k with
  | O => EmptyString
  | S k => String "0"%char (zeros k)
  end.

Definition zero_pad (width : nat) (s : string) : string :=
  (zeros (width - String.length s) ++ s)%string.

Definition sample_machine_id (i : nat) : string :=
  ("M" ++ zero_pad 3 (decimal i))%string.

(** The draws of one iteration of each of the three loops:
    [count_draw] is the result of [random.randint(20, 150)]. *)
Record MachineDraws := mkMachineDraws { type_pick : nat; location_pick : nat }.

Record Draws := mkDraws { pick : nat; unit_draw : Q; count_draw : Z }.

Record FailureDraws := mkFailureDraws {
  machine_pick : nat;
  kind_pick : nat;
  downtime_draw : Q;
  resolution_pick : nat
}.

(** What the random module can return for a log entry. *)
Definition possible (d : Draws) : Prop :=
  (pick d < length status_choices)%nat
  /\ (0 <= unit_draw d /\ unit_draw d < 1)
  /\ (20 <= count_draw d <= 150)%Z.

(** [generate_sample_machines]: iteration [i] draws [rnd i] and stores at
    time [clock i]. *)
Definition generate_sample_machines (count : nat)
    (rnd : nat -> MachineDraws) (clock : nat -> Timestamp)
    (db : DatabaseHandler.Database) : DatabaseHandler.Database :=
  foldl (fun db i =>
           let machine_id := sample_machine_id i in
           let machine_type := choice machine_types (type_pick (rnd i)) in
           let machine_name := (machine_type ++ " Machine " ++ decimal i)%string in
           let location := choice locations (location_pick (rnd i)) in
           DatabaseHandler.add_machine (clock i) machine_id machine_name
             machine_type location db)
        db (seq 1 count).

(** The status, duration and production count handed to
    [log_machine_status] in the body of [generate_sample_logs]. *)
Definition sample_log_entry (d : Draws) : string * Q * Z :=
  let status := choice status_choices (pick d) in
  if decide (status = "RUNNING")
  then (status, uniform 30 180 (unit_draw d), count_draw d)
  else if decide (status = "IDLE") then (status, uniform 10 60 (unit_draw d), 0%Z)
  else if decide (status = "MAINTENANCE")
       then (status, uniform 60 240 (unit_draw d), 0%Z)
       else (status, uniform 30 120 (unit_draw d), 0%Z).

(** The row the entry becomes once stored ([notes] keeps its default). *)
Definition sample_log_row (machine_id : string) (now : Timestamp) (d : Draws)
    : StatusLog.t :=
  let '(status, duration, production) := sample_log_entry d in
  StatusLog.mk machine_id status now duration production "".

(** One pass of the innermost loop body: the state is the database and
    [total_logs]; entry number [total_logs] draws [rnd total_logs] and is
    stored at time [clock total_logs]. *)
Definition generate_one_log (rnd : nat -> Draws) (clock : nat -> Timestamp)
    (machine_id : string) (st : DatabaseHandler.Database * nat)
    : DatabaseHandler.Database * nat :=
  let '(db, total_logs) := st in
  let '(status, duration, production) := sample_log_entry (rnd total_logs) in
  (DatabaseHandler.log_machine_status (clock total_logs) machine_id status
     duration production "" db,
   S total_logs).

(** [generate_sample_logs]: the database it leaves and the [total_logs]
    it reports.  The [date] computed for each day is not passed on, so
    the loop over days only repeats the innermost loop. *)
Definition generate_sample_logs (days logs_per_day : nat)
    (rnd : nat -> Draws) (clock : nat -> Timestamp)
    (db : DatabaseHandler.Database) : DatabaseHandler.Database * nat :=
  let machines_df := DatabaseHandler.get_all_machines db in
  match machines_df with
  | [] => (db, O)
  | _ =>
    foldl (fun st machine =>
             let machine_id := DatabaseHandler.machine_id machine in
             foldl (fun st _day =>
                      foldl (fun st _ => generate_one_log rnd clock machine_id st)
                            st (seq 0 logs_per_day))
                   st (seq 0 days))
          (db, O) machines_df
  end.

Definition generate_sample_failures (count : nat)
    (rnd : nat -> FailureDraws) (clock : nat -> Timestamp)
    (db : DatabaseHandler.Database) : DatabaseHandler.Database :=
  let machines_df := DatabaseHandler.get_all_machines db in
  match machines_df with
  | [] => db
  | _ =>
    foldl (fun db i =>
             let machine_id :=
               choice (DatabaseHandler.machine_id <$> machines_df)
                      (machine_pick (rnd i)) in
             let failure_type := choice failure_types (kind_pick (rnd i)) in
             let downtime := uniform 15 240 (downtime_draw (rnd i)) in
             let resolution := choice resolutions (resolution_pick (rnd i)) in
             DatabaseHandler.log_failure (clock i) machine_id failure_type
               downtime resolution db)
          db (seq 0 count)
  end.

(** Everything a run of the generator takes from outside. *)
Record World := mkWorld {
  machine_draws : nat -> MachineDraws;
  log_draws : nat -> Draws;
  failure_draws : nat -> FailureDraws;
  machine_clock : nat -> Timestamp;
  log_clock : nat -> Timestamp;
  failure_clock : nat -> Timestamp
}.

Definition generate_complete_dataset (num_machines days : nat) (w : World)
    (db : DatabaseHandler.Database) : DatabaseHandler.Database :=
  let db := generate_sample_machines num_machines (machine_draws w)
              (machine_clock w) db in
  let db := (generate_sample_logs days 15 (log_draws w) (log_clock w) db).1 in
  generate_sample_failures (num_machines * 3) (failure_draws w)
    (failure_clock w) db.

End DataGenerator.

(** The ids [generate_sample_machines count] uses. *)
Definition generated_ids (count : nat) : list string :=
  DataGenerator.sample_machine_id <$> seq 1 count.


(** The machine each generated log goes to, in the order
    [generate_sample_logs] stores them: every machine of the listing
    [days * logs_per_day] times. *)
Definition log_targets (days logs_per_day : nat) (db : DatabaseHandler.Database)
    : list string :=
  DatabaseHandler.get_all_machines db
  ≫= (fun m => replicate (days * logs_per_day) (DatabaseHandler.machine_id m)).

(** The rows stored for a list of target machines: entry [j] gets key
    [first_key + j] and the draws and the time number [k0 + j]. *)
Definition stored_logs (rnd : nat -> DataGenerator.Draws) (clock : nat -> Timestamp)
    (first_key : Z) (k0 : nat) (ids : list string) : list (Z * StatusLog.t) :=
  imap (fun j id => ((first_key + Z.of_nat j)%Z,
                     DataGenerator.sample_log_row id (clock (k0 + j)%nat)
                       (rnd (k0 + j)%nat)))
       ids.

Definition run_logs (rnd : nat -> DataGenerator.Draws) (clock : nat -> Timestamp)
    (ids : list string) (st : DatabaseHandler.Database * nat)
    : DatabaseHandler.Database * nat :=
  foldl (fun st id => DataGenerator.generate_one_log rnd clock id st) st ids.

(** The failure row iteration [i] of [generate_sample_failures] stores. *)
Definition sample_failure_row (ids : list string)
    (rnd : nat -> DataGenerator.FailureDraws) (clock : nat -> Timestamp) (i : nat)
    : FailureLog.t :=
  FailureLog.mk
    (DataGenerator.choice ids (DataGenerator.machine_pick (rnd i)))
    (DataGenerator.choice DataGenerator.failure_types
       (DataGenerator.kind_pick (rnd i)))
    (clock i)
    (DataGenerator.uniform 15 240 (DataGenerator.downtime_draw (rnd i)))
    (DataGenerator.choice DataGenerator.resolutions
       (DataGenerator.resolution_pick (rnd i))).

Definition stored_failures (ids : list string)
    (rnd : nat -> DataGenerator.FailureDraws) (clock : nat -> Timestamp)
    (first_key : Z) (count : nat) : list (Z * FailureLog.t) :=
  (fun i => ((first_key + Z.of_nat i)%Z, sample_failure_row ids rnd clock i))
  <$> seq 0 count.

(** Draws for the worked examples. *)
Definition sample_failure_draws (i : nat) : DataGenerator.FailureDraws :=
  DataGenerator.mkFailureDraws (i mod 2) (i mod 8) (1 # 4) (i mod 8).

Definition sample_log_draws (i : nat) : DataGenerator.Draws :=
  DataGenerator.mkDraws (i mod 8) (1 # 2) 50.

Definition sample_machine_draws (i : nat) : DataGenerator.MachineDraws :=
  DataGenerator.mkMachineDraws (i mod 6) (i mod 6).
(** * Properties *)

(** ** Rounding *)

Lemma Qcompare_Eq (p q : Q) : Qcompare p q = Eq -> p == q.
Proof. intros H. apply <- Qeq_alt. exact H. Qed.

Lemma Qcompare_Lt (p q : Q) : Qcompare p q = Lt -> p < q.
Proof. intros H. apply <- Qlt_alt. exact H. Qed.

Lemma Qcompare_Gt (p q : Q) : Qcompare p q = Gt -> q < p.
Proof. intros H. apply <- Qgt_alt. exact H. Qed.

Lemma Qfloor_eq (x y : Q) : x == y -> Qfloor x = Qfloor y.
Proof.
  intros H. apply Z.le_antisymm; apply Qfloor_resp_le; rewrite H; apply Qle_refl.
Qed.

Lemma round_half_even_comp (x y : Q) :
  x == y -> round_half_even x = round_half_even y.
Proof.
  intros H. unfold round_half_even.
  rewrite (Qfloor_eq x y H).
  assert (E : Qcompare (x - inject_Z (Qfloor y)) (1 # 2) = Qcompare (y - inject_Z (Qfloor y)) (1 # 2)).
  { apply Qcompare_comp; [rewrite H|]; reflexivity. }
  rewrite E. reflexivity.
Qed.

Lemma round2_comp (x y : Q) : x == y -> round2 x = round2 y.
Proof.
  intros H. unfold round2.
  rewrite (round_half_even_comp (x * 100) (y * 100)); [reflexivity|].
  rewrite H. reflexivity.
Qed.

Lemma round_half_even_range (x : Q) :
  round_half_even x = Qfloor x \/ round_half_even x = (Qfloor x + 1)%Z.
Proof.
  unfold round_half_even.
  destruct (Qcompare (x - inject_Z (Qfloor x)) (1 # 2)); auto.
  destruct (Z.even (Qfloor x)); auto.
Qed.

Lemma inject_Z_succ (z : Z) : inject_Z (z + 1) == inject_Z z + 1.
Proof. rewrite inject_Z_plus. reflexivity. Qed.

Lemma round_half_even_err (x : Q) :
  Qabs (inject_Z (round_half_even x) - x) <= 1 # 2.
Proof.
  pose proof (Qfloor_le x) as Hlo.
  pose proof (Qlt_floor x) as Hhi.
  rewrite inject_Z_succ in Hhi.
  unfold round_half_even.
  destruct (Qcompare (x - inject_Z (Qfloor x)) (1 # 2)) eqn:E.
  - apply Qcompare_Eq in E.
    destruct (Z.even (Qfloor x)); [|rewrite inject_Z_succ];
      apply Qabs_Qle_condition; split; lra.
  - apply Qcompare_Lt in E. apply Qabs_Qle_condition; split; lra.
  - apply Qcompare_Gt in E. rewrite inject_Z_succ.
    apply Qabs_Qle_condition; split; lra.
Qed.

Lemma round_half_even_mono (x y : Q) :
  x <= y -> (round_half_even x <= round_half_even y)%Z.
Proof.
  intros Hxy.
  pose proof (Qfloor_resp_le x y Hxy) as Hf.
  destruct (Z.eq_dec (Qfloor x) (Qfloor y)) as [Heq|Hne].
  - unfold round_half_even. rewrite Heq.
    destruct (Qcompare (x - inject_Z (Qfloor y)) (1 # 2)) eqn:Ex;
      [apply Qcompare_Eq in Ex | apply Qcompare_Lt in Ex | apply Qcompare_Gt in Ex];
      (destruct (Qcompare (y - inject_Z (Qfloor y)) (1 # 2)) eqn:Ey;
       [apply Qcompare_Eq in Ey | apply Qcompare_Lt in Ey | apply Qcompare_Gt in Ey]);
      try (destruct (Z.even (Qfloor y))); try lia; exfalso; lra.
  - destruct (round_half_even_range x) as [-> | ->];
      destruct (round_half_even_range y) as [-> | ->]; lia.
Qed.

Lemma round_half_even_Z (z : Z) : round_half_even (inject_Z z) = z.
Proof.
  unfold round_half_even. rewrite Qfloor_Z.
  assert (E : Qcompare (inject_Z z - inject_Z z) (1 # 2) = Lt).
  { apply -> Qlt_alt. lra. }
  rewrite E. reflexivity.
Qed.

Lemma round2_mono (x y : Q) : x <= y -> round2 x <= round2 y.
Proof.
  intros H. unfold round2.
  assert (Hz : (round_half_even (x * 100) <= round_half_even (y * 100))%Z).
  { apply round_half_even_mono. lra. }
  rewrite Zle_Qle in Hz.
  apply Qmult_le_compat_r; [exact Hz | discriminate].
Qed.

Lemma round2_Z (z : Z) : round2 (inject_Z z) == inject_Z z.
Proof.
  unfold round2.
  rewrite (round_half_even_comp (inject_Z z * 100) (inject_Z (z * 100))).
  - rewrite round_half_even_Z. rewrite inject_Z_mult. field.
  - rewrite inject_Z_mult. reflexivity.
Qed.

Lemma round2_err (x : Q) : Qabs (round2 x - x) <= 1 # 200.
Proof.
  unfold round2.
  pose proof (round_half_even_err (x * 100)) as H.
  apply Qabs_Qle_condition in H. destruct H as [H1 H2].
  apply Qabs_Qle_condition.
  set (r := inject_Z (round_half_even (x * 100))) in *.
  split.
  - assert (E : r / 100 - x == (r - x * 100) / 100) by field.
    rewrite E. apply Qle_shift_div_l; [reflexivity | lra].
  - assert (E : r / 100 - x == (r - x * 100) / 100) by field.
    rewrite E. apply Qle_shift_div_r; [reflexivity | lra].
Qed.

Lemma round2_0 : round2 0 == 0.
Proof. reflexivity. Qed.

Lemma round2_100 : round2 100 == 100.
Proof. reflexivity. Qed.

Lemma round2_nonneg (x : Q) : 0 <= x -> 0 <= round2 x.
Proof. intros H. rewrite <- round2_0. apply round2_mono. exact H. Qed.

Lemma round2_le_100 (x : Q) : x <= 100 -> round2 x <= 100.
Proof. intros H. rewrite <- round2_100. apply round2_mono. exact H. Qed.

(** ** Frames and status filters *)

Lemma with_status_cons (s : string) (r : StatusLog.t) (l : list StatusLog.t) :
  with_status s (r :: l) =
  if decide (StatusLog.status r = s) then r :: with_status s l else with_status s l.
Proof. exact (filter_cons (fun r => StatusLog.status r = s) r l). Qed.

Lemma with_status_in_cons (ss : list string) (r : StatusLog.t) (l : list StatusLog.t) :
  with_status_in ss (r :: l) =
  if decide (StatusLog.status r ∈ ss) then r :: with_status_in ss l
  else with_status_in ss l.
Proof. exact (filter_cons (fun r => StatusLog.status r ∈ ss) r l). Qed.


Lemma empty_frame_nil {R : Type} (df : DataFrame R) :
  rows df = [] -> empty_frame df = true.
Proof. unfold empty_frame. intros ->. reflexivity. Qed.

Lemma empty_frame_false {R : Type} (df : DataFrame R) :
  rows df <> [] -> empty_frame df = false.
Proof. unfold empty_frame. destruct (rows df); [congruence | reflexivity]. Qed.

(** *** Running, idle and downtime percentages *)






(** *** Overall equipment effectiveness *)

Example shift_oee :
  calculate_oee shift_logs one_failure 1 480
  = mkOEE (9375 # 100) (2222 # 100) (10000 # 100) (2083 # 100).
Proof. vm_compute. reflexivity. Qed.

Example busy_shift_oee :
  calculate_oee busy_shift_logs one_failure 1 480
  = mkOEE (9375 # 100) (10000 # 100) (10000 # 100) (20833 # 100).
Proof. vm_compute. reflexivity. Qed.

(** Counterexample to C3: with performance capped (production 1000
    against a target of 450) the returned oee is 208.33 while the
    returned components multiply to 93.75; and already on scenario 4 the
    returned oee 20.83 is not the unrounded product 20.83125 of the
    returned components. *)
Lemma oee_not_product_of_returned_fields :
  (let r := calculate_oee busy_shift_logs one_failure 1 480 in
   ~ oee r == availability r * performance r * quality r / 10000)
  /\
  (let r := calculate_oee shift_logs one_failure 1 480 in
   ~ oee r == availability r * performance r * quality r / 10000).
Proof. split; vm_compute; discriminate. Qed.

(** C3 (amended): for a non-empty status log collection whose
    availability and performance, as computed before capping, do not
    exceed 100, the returned availability and performance are those
    values rounded to two decimals, quality is 100, and the returned oee
    is availability × performance × quality / 10000 computed from the
    unrounded values and then rounded to two decimals.  On scenario 4 the
    result is availability 93.75, performance 22.22, oee 20.83. *)
Theorem oee_rounds_unrounded_product
    (logs : StatusLogs) (failures : FailureLogs) (ideal planned : Q) :
  (rows logs <> [] ->
   oee_availability failures planned <= 100 ->
   oee_performance logs failures ideal planned <= 100 ->
   let r := calculate_oee logs failures ideal planned in
   availability r = round2 (oee_availability failures planned)
   /\ performance r = round2 (oee_performance logs failures ideal planned)
   /\ quality r == 100
   /\ oee r = round2 (oee_availability failures planned
                      * oee_performance logs failures ideal planned
                      * 100 / 10000))
  /\
  (let r := calculate_oee shift_logs one_failure 1 480 in
   availability r == 9375 # 100
   /\ performance r == 2222 # 100
   /\ oee r == 2083 # 100).
Proof.
  split; [|repeat split; reflexivity].
  intros Hne Ha Hp. unfold calculate_oee.
  rewrite (empty_frame_false logs Hne). cbn [availability performance quality oee].
  repeat split.
  - apply round2_comp. apply Q.min_l. exact Ha.
  - apply round2_comp. apply Q.min_l. exact Hp.
Qed.

Lemma oee_rounds_unrounded_product_witness :
  rows shift_logs <> []
  /\ oee_availability one_failure 480 <= 100
  /\ oee_performance shift_logs one_failure 1 480 <= 100
  /\ oee (calculate_oee shift_logs one_failure 1 480)
     = round2 (oee_availability one_failure 480
               * oee_performance shift_logs one_failure 1 480 * 100 / 10000).
Proof.
  assert (H1 : rows shift_logs <> []) by discriminate.
  assert (H2 : oee_availability one_failure 480 <= 100) by discriminate.
  assert (H3 : oee_performance shift_logs one_failure 1 480 <= 100) by discriminate.
  split; [exact H1 | split; [exact H2 | split; [exact H3 |]]].
  exact (proj2 (proj2 (proj2
    (proj1 (oee_rounds_unrounded_product shift_logs one_failure 1 480) H1 H2 H3)))).
Defined.


Lemma Forall_with_status (P : StatusLog.t -> Prop) (s : string)
    (l : list StatusLog.t) :
  Forall P l -> Forall P (with_status s l).
Proof.
  induction 1 as [|r l Hr Hl IH]; [constructor|].
  rewrite with_status_cons. case_decide; [constructor|]; assumption.
Qed.






(** *** Daily failure rate and the caller's frame *)

Example daily_failure_rate_scenario :
  fst (calculate_daily_failure_rate two_day_failures)
  = mkDailyFailureRate (200 # 100) 4 3 2.
Proof. vm_compute. reflexivity. Qed.

Lemma daily_failure_rate_frame (failures : FailureLogs) :
  rows failures <> [] ->
  snd (calculate_daily_failure_rate failures)
  = mkFrame (rows failures)
            (Some (map (fun r => ts_date (FailureLog.timestamp r)) (rows failures))).
Proof.
  intros Hne. unfold calculate_daily_failure_rate.
  rewrite (empty_frame_false failures Hne). reflexivity.
Qed.

(** C5: the claim that no operation changes its input fails for
    [calculate_daily_failure_rate]: called on a one-row failure frame
    that has no ['date'] column, it leaves the caller's frame with that
    column added. *)
Theorem daily_failure_rate_adds_date_column :
  date_column one_failure = None
  /\ snd (calculate_daily_failure_rate one_failure)
     = mkFrame (rows one_failure) (Some [mkDate 2024 1 15])
  /\ snd (calculate_daily_failure_rate one_failure) <> one_failure.
Proof.
  split; [reflexivity|]. split; [reflexivity|].
  vm_compute. discriminate.
Qed.

(** *** Productivity *)

(** Counterexample to C6: a RUNNING row of zero duration with production
    count 5 gives total_production 5, not the all-zero structure. *)
Lemma productivity_zero_runtime_keeps_production :
  running_time zero_duration_logs == 0
  /\ total_production (calculate_productivity zero_duration_logs) = 5%Z
  /\ calculate_productivity zero_duration_logs <> mkProductivity 0 0 0 0.
Proof.
  split; [reflexivity|]. split; [reflexivity|]. vm_compute. discriminate.
Qed.

(** C6 (amended): for every status log collection whose RUNNING rows have
    total duration 0, [calculate_productivity] returns
    production_per_hour, total_runtime_hours and total_runtime_minutes
    equal to 0 and total_production equal to the sum of production_count
    over the RUNNING rows; when the collection has no RUNNING rows at all
    this is the all-zero structure. *)
Theorem productivity_zero_runtime (logs : StatusLogs) :
  (running_time logs == 0 ->
   let p := calculate_productivity logs in
   total_production p
     = col_sum_int StatusLog.production_count (with_status "RUNNING" (rows logs))
   /\ production_per_hour p == 0
   /\ total_runtime_hours p == 0
   /\ total_runtime_minutes p == 0)
  /\
  (with_status "RUNNING" (rows logs) = [] ->
   let p := calculate_productivity logs in
   total_production p = 0%Z
   /\ production_per_hour p == 0
   /\ total_runtime_hours p == 0
   /\ total_runtime_minutes p == 0).
Proof.
  assert (Hzero : running_time logs == 0 ->
    let p := calculate_productivity logs in
    total_production p
      = col_sum_int StatusLog.production_count (with_status "RUNNING" (rows logs))
    /\ production_per_hour p == 0
    /\ total_runtime_hours p == 0
    /\ total_runtime_minutes p == 0).
  { intros Hz. unfold calculate_productivity, empty_frame.
    destruct (rows logs) as [|r l] eqn:El; [repeat split; reflexivity|].
    unfold running_time in Hz. rewrite El in Hz.
    cbn [total_production production_per_hour total_runtime_hours
         total_runtime_minutes].
    set (mins := col_sum StatusLog.duration_minutes (with_status "RUNNING" (r :: l))) in *.
    assert (Hh : mins / 60 == 0) by (rewrite Hz; reflexivity).
    split; [reflexivity|].
    split; [|split].
    - destruct (Qlt_le_dec 0 (mins / 60)) as [Hlt|_]; [lra | reflexivity].
    - rewrite (round2_comp _ _ Hh). reflexivity.
    - rewrite (round2_comp _ _ Hz). reflexivity. }
  split; [exact Hzero|].
  intros Hnone.
  assert (Hz : running_time logs == 0).
  { unfold running_time. rewrite Hnone. reflexivity. }
  destruct (Hzero Hz) as (Ht & Hrest).
  split; [|exact Hrest].
  rewrite Ht, Hnone. reflexivity.
Qed.

Lemma productivity_zero_runtime_witness :
  running_time zero_duration_logs == 0
  /\ with_status "RUNNING" (rows idle_only_logs) = []
  /\ production_per_hour (calculate_productivity zero_duration_logs) == 0
  /\ total_production (calculate_productivity idle_only_logs) = 0%Z.
Proof.
  assert (H1 : running_time zero_duration_logs == 0) by reflexivity.
  assert (H2 : with_status "RUNNING" (rows idle_only_logs) = []) by reflexivity.
  split; [exact H1 | split; [exact H2 |]].
  split.
  - exact (proj1 (proj2 (proj1 (productivity_zero_runtime zero_duration_logs) H1))).
  - exact (proj1 (proj2 (productivity_zero_runtime idle_only_logs) H2)).
Defined.

(** *** Empty input *)

(** C7: on an empty collection every operation returns its default: the
    three percentages 0, the daily failure rate all zero, productivity
    all zero, oee (0, 0, 100, 0) whatever the failures and parameters,
    mtbf and mttr 0, and the status distribution the empty mapping. *)
Theorem empty_input_defaults
    (c1 c2 : option (list Date)) (failures : FailureLogs) (ideal planned hours : Q) :
  let empty_logs : StatusLogs := mkFrame [] c1 in
  let empty_failures : FailureLogs := mkFrame [] c2 in
  calculate_running_time_percentage empty_logs = 0
  /\ calculate_idle_time_percentage empty_logs = 0
  /\ calculate_downtime_percentage empty_logs = 0
  /\ fst (calculate_daily_failure_rate empty_failures) = mkDailyFailureRate 0 0 0 0
  /\ calculate_productivity empty_logs = mkProductivity 0 0 0 0
  /\ calculate_oee empty_logs failures ideal planned = mkOEE 0 0 100 0
  /\ calculate_mtbf empty_failures hours = 0
  /\ calculate_mttr empty_failures = 0
  /\ get_status_distribution empty_logs = ∅.
Proof. repeat split. Qed.

(** *** Mean time between failures and mean time to repair *)

Lemma length_pos_Q {R : Type} (l : list R) :
  l <> [] -> 0 < inject_Z (Z.of_nat (length l)).
Proof.
  intros H. change 0 with (inject_Z 0). rewrite <- Zlt_Qlt.
  destruct l; [congruence | simpl; lia].
Qed.

Lemma length_le_Q {R : Type} (l l' : list R) :
  (length l <= length l')%nat ->
  inject_Z (Z.of_nat (length l)) <= inject_Z (Z.of_nat (length l')).
Proof. intros H. rewrite <- Zle_Qle. lia. Qed.

(** A non-negative amount shared among more parts gives smaller parts. *)
Lemma Qdiv_le_denominator (a n n' : Q) :
  0 <= a -> 0 < n -> n <= n' -> a / n' <= a / n.
Proof.
  intros Ha Hn Hnn'.
  assert (Hn' : 0 < n') by lra.
  apply Qle_shift_div_r; [exact Hn'|].
  assert (Hq : 0 <= a / n) by (apply Qle_shift_div_l; [exact Hn | lra]).
  assert (Hd : 0 <= (a / n) * (n' - n)) by (apply Qmult_le_0_compat; lra).
  assert (E : a / n * n' == a + a / n * (n' - n)) by (field; lra).
  rewrite E. lra.
Qed.

Example mtbf_scenario : calculate_mtbf two_failures 20 == 10.
Proof. reflexivity. Qed.

Example mttr_scenario : calculate_mttr two_failures == 1.
Proof. reflexivity. Qed.

(** Counterexample to C8: with 0.001 runtime hours, one failure and two
    failures both give MTBF 0.0, so a further failure does not strictly
    decrease it; and with 20 runtime hours the first failure raises MTBF
    from 0 (empty collection) to 20. *)
Lemma mtbf_not_strictly_decreasing :
  (length (rows one_failure) < length (rows two_failures))%nat
  /\ ~ calculate_mtbf two_failures (1 # 1000) < calculate_mtbf one_failure (1 # 1000)
  /\ (length (rows no_failures) < length (rows one_failure))%nat
  /\ calculate_mtbf no_failures 20 < calculate_mtbf one_failure 20.
Proof.
  split; [simpl; lia|]. split; [vm_compute; discriminate|].
  split; [simpl; lia|]. reflexivity.
Qed.

(** C8 (amended): for a fixed positive total_runtime_hours and non-empty
    failure collections, more failures never give a larger MTBF (the
    result is rounded to two decimals, so the decrease need not be
    strict); for a fixed non-negative total downtime, more failures never
    give a larger MTTR; both are 0 for an empty failure collection. *)
Theorem mtbf_mttr_monotone (fs fs' : FailureLogs) (hours : Q) :
  (0 < hours -> rows fs <> [] ->
   (length (rows fs) <= length (rows fs'))%nat ->
   calculate_mtbf fs' hours <= calculate_mtbf fs hours)
  /\
  (0 <= col_sum FailureLog.downtime_minutes (rows fs) ->
   col_sum FailureLog.downtime_minutes (rows fs')
     == col_sum FailureLog.downtime_minutes (rows fs) ->
   (length (rows fs) <= length (rows fs'))%nat ->
   calculate_mttr fs' <= calculate_mttr fs)
  /\
  (rows fs = [] -> calculate_mtbf fs hours == 0 /\ calculate_mttr fs == 0).
Proof.
  split; [|split].
  - intros Hh Hne Hlen.
    assert (Hne' : rows fs' <> []).
    { intros E. rewrite E in Hlen. destruct (rows fs); [congruence | simpl in Hlen; lia]. }
    unfold calculate_mtbf.
    rewrite (empty_frame_false fs Hne), (empty_frame_false fs' Hne').
    destruct (Qeq_dec hours 0) as [E|_]; [lra|].
    apply round2_mono, Qdiv_le_denominator.
    + lra.
    + apply length_pos_Q, Hne.
    + apply length_le_Q, Hlen.
  - intros Hd Hsame Hlen. unfold calculate_mttr, empty_frame.
    destruct (rows fs) as [|f l] eqn:El.
    + destruct (rows fs') as [|f' l'] eqn:El'; [apply Qle_refl|].
      rewrite <- round2_0. apply round2_mono.
      rewrite Hsame. simpl. apply Qle_lteq. right. field.
      pose proof (length_pos_Q (f' :: l')) as Hp. simpl length in Hp.
      intros E. rewrite E in Hp. apply (Qlt_irrefl 0), Hp. discriminate.
    + destruct (rows fs') as [|f' l'] eqn:El'; [simpl in Hlen; lia|].
      apply round2_mono. rewrite Hsame.
      apply Qdiv_le_denominator.
      * apply Qle_shift_div_l; [reflexivity | lra].
      * apply length_pos_Q. discriminate.
      * apply length_le_Q, Hlen.
  - intros E. unfold calculate_mtbf, calculate_mttr.
    rewrite (empty_frame_nil fs E). split; reflexivity.
Qed.

Lemma mtbf_mttr_monotone_witness :
  0 < 20
  /\ rows one_failure <> []
  /\ (length (rows one_failure) <= length (rows two_failures))%nat
  /\ calculate_mtbf two_failures 20 <= calculate_mtbf one_failure 20
  /\ 0 <= col_sum FailureLog.downtime_minutes (rows one_failure)
  /\ col_sum FailureLog.downtime_minutes (rows split_failure)
       == col_sum FailureLog.downtime_minutes (rows one_failure)
  /\ (length (rows one_failure) <= length (rows split_failure))%nat
  /\ calculate_mttr split_failure <= calculate_mttr one_failure
  /\ rows no_failures = []
  /\ calculate_mtbf no_failures 20 == 0.
Proof.
  assert (H1 : 0 < 20) by reflexivity.
  assert (H2 : rows one_failure <> []) by discriminate.
  assert (H3 : (length (rows one_failure) <= length (rows two_failures))%nat)
    by (simpl; lia).
  assert (H4 : 0 <= col_sum FailureLog.downtime_minutes (rows one_failure))
    by discriminate.
  assert (H5 : col_sum FailureLog.downtime_minutes (rows split_failure)
               == col_sum FailureLog.downtime_minutes (rows one_failure))
    by reflexivity.
  assert (H6 : (length (rows one_failure) <= length (rows split_failure))%nat)
    by (simpl; lia).
  assert (H7 : rows no_failures = []) by reflexivity.
  split; [exact H1 | split; [exact H2 | split; [exact H3 |]]].
  split; [exact (proj1 (mtbf_mttr_monotone one_failure two_failures 20) H1 H2 H3)|].
  split; [exact H4 | split; [exact H5 | split; [exact H6 |]]].
  split; [exact (proj1 (proj2 (mtbf_mttr_monotone one_failure split_failure 20))
                   H4 H5 H6)|].
  split; [exact H7|].
  exact (proj1 (proj2 (proj2 (mtbf_mttr_monotone no_failures no_failures 20)) H7)).
Defined.

(** *** Grouped sums *)

Section grouped.
Context {K : Type} `{Countable K}.

Lemma sum_values_empty : sum_values (∅ : gmap K Q) == 0.
Proof. unfold sum_values. rewrite map_fold_empty. reflexivity. Qed.

Lemma sum_values_insert_fresh (m : gmap K Q) (k : K) (v : Q) :
  m !! k = None -> sum_values (<[k := v]> m) == v + sum_values m.
Proof.
  intros Hk. unfold sum_values.
  apply (map_fold_insert Qeq (fun _ v acc => v + acc)).
  - intros _ z a b Hab. rewrite Hab. reflexivity.
  - intros. ring.
  - exact Hk.
Qed.

Lemma sum_values_delete (m : gmap K Q) (k : K) (w : Q) :
  m !! k = Some w -> sum_values m == w + sum_values (delete k m).
Proof.
  intros Hk. unfold sum_values.
  apply (map_fold_delete Qeq (fun _ v acc => v + acc)).
  - intros _ z a b Hab. rewrite Hab. reflexivity.
  - intros. ring.
  - exact Hk.
Qed.

Lemma sum_values_accumulate (m : gmap K Q) (k : K) (c : Q) :
  sum_values (<[k := default 0 (m !! k) + c]> m) == sum_values m + c.
Proof.
  destruct (m !! k) as [w|] eqn:Hk; simpl.
  - rewrite <- insert_delete_eq.
    rewrite sum_values_insert_fresh by apply lookup_delete_eq.
    rewrite (sum_values_delete m k w Hk). ring.
  - rewrite sum_values_insert_fresh by exact Hk. ring.
Qed.

Lemma sum_values_groupby {R : Type} (key : R -> K) (col : R -> Q) (l : list R) :
  sum_values (groupby_sum key col l) == col_sum col l.
Proof.
  induction l as [|r l IH]; simpl.
  - apply sum_values_empty.
  - rewrite sum_values_accumulate, IH. ring.
Qed.

Lemma sum_values_scale (m : gmap K Q) (t : Q) :
  ~ t == 0 ->
  sum_values ((fun v => v / t * 100) <$> m) == sum_values m / t * 100.
Proof.
  intros Ht. induction m as [|k v m Hk IH] using map_ind.
  - rewrite fmap_empty, sum_values_empty. field. exact Ht.
  - rewrite fmap_insert.
    rewrite !sum_values_insert_fresh; [| exact Hk | rewrite lookup_fmap, Hk; reflexivity].
    rewrite IH. field. exact Ht.
Qed.

Lemma sum_values_round2 (m : gmap K Q) :
  Qabs (sum_values (round2 <$> m) - sum_values m)
  <= inject_Z (Z.of_nat (size m)) * (1 # 200).
Proof.
  induction m as [|k v m Hk IH] using map_ind.
  - rewrite fmap_empty, map_size_empty, sum_values_empty. discriminate.
  - rewrite fmap_insert, map_size_insert_None by exact Hk.
    assert (E : sum_values (<[k := round2 v]> (round2 <$> m))
                - sum_values (<[k := v]> m)
                == (round2 v - v) + (sum_values (round2 <$> m) - sum_values m)).
    { rewrite !sum_values_insert_fresh;
        [| exact Hk | rewrite lookup_fmap, Hk; reflexivity]. ring. }
    rewrite E.
    eapply Qle_trans; [apply Qabs_triangle|].
    pose proof (round2_err v) as Hv.
    rewrite Nat2Z.inj_succ. unfold Z.succ. rewrite inject_Z_plus.
    change (inject_Z 1) with 1. lra.
Qed.

Lemma filter_key_absent {R : Type} (key : R -> K) (l : list R) (k : K) :
  k ∉ key <$> l -> filter (fun r => key r = k) l = [].
Proof.
  induction l as [|r l IH]; [reflexivity|].
  rewrite fmap_cons, not_elem_of_cons. intros [Hne Hl].
  rewrite filter_cons. case_decide; [congruence | exact (IH Hl)].
Qed.

Lemma groupby_sum_lookup {R : Type} (key : R -> K) (col : R -> Q)
    (l : list R) (k : K) :
  match groupby_sum key col l !! k with
  | Some v => k ∈ key <$> l /\ v == col_sum col (filter (fun r => key r = k) l)
  | None => k ∉ key <$> l
  end.
Proof.
  induction l as [|r l IH]; simpl.
  - rewrite lookup_empty. apply not_elem_of_nil.
  - rewrite lookup_insert, filter_cons.
    destruct (decide (key r = k)) as [E|Hne].
    + split; [rewrite E; apply list_elem_of_here|].
      rewrite E. simpl.
      destruct (groupby_sum key col l !! k) as [w|]; simpl.
      * destruct IH as [_ Hw]. rewrite Hw. ring.
      * rewrite (filter_key_absent key l k IH). simpl. ring.
    + destruct (groupby_sum key col l !! k) as [w|].
      * destruct IH as [Hin Hw]. split; [apply list_elem_of_further, Hin | exact Hw].
      * rewrite elem_of_cons. intros [E|Hin]; [congruence | contradiction].
Qed.

Lemma groupby_sum_dom {R : Type} (key : R -> K) (col : R -> Q) (l : list R) :
  dom (groupby_sum key col l) = list_to_set (key <$> l).
Proof.
  induction l as [|r l IH]; simpl.
  - apply dom_empty_L.
  - rewrite dom_insert_L, IH. reflexivity.
Qed.

End grouped.

(** *** Status distribution *)

Lemma status_share_sum (logs : StatusLogs) :
  ~ total_time logs == 0 -> sum_values (status_share logs) == 100.
Proof.
  intros Hnz. unfold status_share.
  rewrite sum_values_scale by exact Hnz.
  rewrite sum_values_groupby. fold (total_time logs). field. exact Hnz.
Qed.

Lemma status_share_size (logs : StatusLogs) :
  Forall (fun r => StatusLog.status r ∈ MACHINE_STATUS) (rows logs) ->
  (size (status_share logs) <= 5)%nat.
Proof.
  intros Hst. unfold status_share.
  rewrite map_size_fmap, <- size_dom, groupby_sum_dom.
  transitivity (size (list_to_set MACHINE_STATUS : gset string)).
  - apply subseteq_size. intros s Hs.
    rewrite elem_of_list_to_set in Hs. rewrite elem_of_list_to_set.
    apply list_elem_of_fmap_1 in Hs. destruct Hs as (r & -> & Hr).
    rewrite Forall_forall in Hst. apply Hst, Hr.
  - rewrite size_list_to_set; [reflexivity|].
    apply (bool_decide_unpack _). vm_compute. exact I.
Qed.

(** C9: for a non-empty status log collection with statuses among
    RUNNING, IDLE, MAINTENANCE, FAILED, OFFLINE, non-negative durations
    and positive total duration, the values of the mapping returned by
    [get_status_distribution], each rounded to two decimals, sum to 100
    within 0.1; the shares before rounding sum to exactly 100. *)
Theorem status_distribution_sums_to_100 (logs : StatusLogs) :
  rows logs <> [] ->
  Forall (fun r => StatusLog.status r ∈ MACHINE_STATUS) (rows logs) ->
  Forall (fun r => 0 <= StatusLog.duration_minutes r) (rows logs) ->
  0 < total_time logs ->
  Qabs (sum_values (get_status_distribution logs) - 100) <= 1 # 10
  /\ get_status_distribution logs = round2 <$> status_share logs
  /\ sum_values (status_share logs) == 100.
Proof.
  intros Hne Hst _ Hpos.
  assert (Hnz : ~ total_time logs == 0) by lra.
  pose proof (status_share_sum logs Hnz) as Hsum.
  unfold get_status_distribution.
  rewrite (empty_frame_false logs Hne).
  destruct (Qeq_dec (total_time logs) 0) as [E|_]; [contradiction|].
  split; [|split; [reflexivity | exact Hsum]].
  pose proof (sum_values_round2 (status_share logs)) as Herr.
  pose proof (status_share_size logs Hst) as Hsz.
  assert (Hq : inject_Z (Z.of_nat (size (status_share logs))) <= 5).
  { change 5 with (inject_Z 5). rewrite <- Zle_Qle. lia. }
  rewrite <- Hsum.
  eapply Qle_trans; [exact Herr|]. lra.
Qed.

Lemma status_distribution_sums_to_100_witness :
  rows mixed_logs <> []
  /\ Forall (fun r => StatusLog.status r ∈ MACHINE_STATUS) (rows mixed_logs)
  /\ Forall (fun r => 0 <= StatusLog.duration_minutes r) (rows mixed_logs)
  /\ 0 < total_time mixed_logs
  /\ Qabs (sum_values (get_status_distribution mixed_logs) - 100) <= 1 # 10
  /\ sum_values (status_share mixed_logs) == 100.
Proof.
  assert (H1 : rows mixed_logs <> []) by discriminate.
  assert (H2 : Forall (fun r => StatusLog.status r ∈ MACHINE_STATUS)
                      (rows mixed_logs)).
  { repeat constructor. }
  assert (H3 : Forall (fun r => 0 <= StatusLog.duration_minutes r)
                      (rows mixed_logs)).
  { repeat constructor; discriminate. }
  assert (H4 : 0 < total_time mixed_logs) by reflexivity.
  destruct (status_distribution_sums_to_100 mixed_logs H1 H2 H3 H4)
    as (Ha & _ & Hb).
  split; [exact H1 | split; [exact H2 | split; [exact H3 | split; [exact H4 |]]]].
  split; [exact Ha | exact Hb].
Defined.

Example mixed_distribution :
  get_status_distribution mixed_logs !! "RUNNING" = Some (3333 # 100)
  /\ get_status_distribution mixed_logs !! "IDLE" = Some (3333 # 100)
  /\ get_status_distribution mixed_logs !! "OFFLINE" = Some (3333 # 100)
  /\ sum_values (get_status_distribution mixed_logs) == 9999 # 100.
Proof. repeat split; vm_compute; reflexivity. Qed.




Lemma status_distribution_lookup (logs : StatusLogs) (s : string) :
  rows logs <> [] -> ~ total_time logs == 0 ->
  s ∈ StatusLog.status <$> rows logs ->
  get_status_distribution logs !! s
  = Some (round2 (col_sum StatusLog.duration_minutes (with_status s (rows logs))
                  / total_time logs * 100)).
Proof.
  intros Hne Hnz Hs. unfold get_status_distribution.
  rewrite (empty_frame_false logs Hne).
  destruct (Qeq_dec (total_time logs) 0) as [E|_]; [contradiction|].
  unfold status_share. rewrite !lookup_fmap.
  pose proof (groupby_sum_lookup StatusLog.status StatusLog.duration_minutes
                (rows logs) s) as Hl.
  destruct (groupby_sum StatusLog.status StatusLog.duration_minutes (rows logs) !! s)
    as [v|]; [|contradiction].
  destruct Hl as [_ Hv]. simpl. f_equal. apply round2_comp.
  unfold with_status. rewrite Hv. reflexivity.
Qed.



Example unknown_status_distribution :
  get_status_distribution unknown_status_logs !! "CALIBRATING" = Some (4000 # 100)
  /\ get_status_distribution unknown_status_logs !! "RUNNING" = Some (6000 # 100)
  /\ calculate_running_time_percentage unknown_status_logs == 60
  /\ calculate_idle_time_percentage unknown_status_logs == 0
  /\ calculate_downtime_percentage unknown_status_logs == 0.
Proof. repeat split; vm_compute; reflexivity. Qed.

(** * Further properties of the calculator *)

(** ** Column sums *)

Lemma col_sum_nonneg {R : Type} (col : R -> Q) (l : list R) :
  Forall (fun r => 0 <= col r) l -> 0 <= col_sum col l.
Proof.
  induction 1 as [|r l Hr Hl IH]; simpl; [apply Qle_refl | lra].
Qed.

Lemma col_sum_filter_le {R : Type} (col : R -> Q) (P : R -> Prop)
    `{forall r, Decision (P r)} (l : list R) :
  Forall (fun r => 0 <= col r) l ->
  0 <= col_sum col (filter P l) /\ col_sum col (filter P l) <= col_sum col l.
Proof.
  induction 1 as [|r l Hr Hl IH]; [split; apply Qle_refl|].
  rewrite filter_cons. destruct (decide (P r)); simpl; lra.
Qed.

Lemma col_sum_zero {R : Type} (col : R -> Q) (l : list R) :
  Forall (fun r => col r == 0) l -> col_sum col l == 0.
Proof.
  induction 1 as [|r l Hr Hl IH]; simpl; [reflexivity | rewrite Hr, IH; reflexivity].
Qed.


Lemma Forall_with_status_in (P : StatusLog.t -> Prop) (ss : list string)
    (l : list StatusLog.t) :
  Forall P l -> Forall P (with_status_in ss l).
Proof.
  induction 1 as [|r l Hr Hl IH]; [constructor|].
  rewrite with_status_in_cons. case_decide; [constructor|]; assumption.
Qed.

(** A quotient of a part by the whole, as a percentage. *)
Lemma share_in_range (part whole : Q) :
  0 <= part -> part <= whole -> 0 < whole ->
  0 <= part / whole * 100 /\ part / whole * 100 <= 100.
Proof.
  intros Hp Hle Hw. split.
  - apply Qmult_le_0_compat; [|discriminate].
    apply Qle_shift_div_l; [exact Hw | lra].
  - assert (Hq : part / whole <= 1) by (apply Qle_shift_div_r; [exact Hw | lra]).
    lra.
Qed.

Lemma total_time_pos (logs : StatusLogs) :
  Forall (fun r => 0 <= StatusLog.duration_minutes r) (rows logs) ->
  ~ total_time logs == 0 -> 0 < total_time logs.
Proof.
  intros Hnn Hnz.
  pose proof (col_sum_nonneg StatusLog.duration_minutes (rows logs) Hnn) as H0.
  fold (total_time logs) in H0.
  destruct (Qlt_le_dec 0 (total_time logs)) as [Hlt|Hle]; [exact Hlt|].
  exfalso. apply Hnz. lra.
Qed.

(** ** Range of the percentages *)

(** X1: with non-negative durations each of the three percentages lies
    between 0 and 100. *)
Theorem percentages_in_range (logs : StatusLogs) :
  Forall (fun r => 0 <= StatusLog.duration_minutes r) (rows logs) ->
  (0 <= calculate_running_time_percentage logs
   /\ calculate_running_time_percentage logs <= 100)
  /\ (0 <= calculate_idle_time_percentage logs
      /\ calculate_idle_time_percentage logs <= 100)
  /\ (0 <= calculate_downtime_percentage logs
      /\ calculate_downtime_percentage logs <= 100).
Proof.
  intros Hnn.
  unfold calculate_running_time_percentage, calculate_idle_time_percentage,
    calculate_downtime_percentage.
  destruct (empty_frame logs); [repeat split; discriminate|].
  destruct (Qeq_dec (total_time logs) 0) as [E|Hnz]; [repeat split; discriminate|].
  pose proof (total_time_pos logs Hnn Hnz) as Hpos.
  unfold running_time, idle_time, downtime, with_status, with_status_in.
  split; [|split]; apply share_in_range; try exact Hpos;
    apply col_sum_filter_le; exact Hnn.
Qed.

Lemma percentages_in_range_witness :
  Forall (fun r => 0 <= StatusLog.duration_minutes r) (rows mixed_logs)
  /\ 0 <= calculate_running_time_percentage mixed_logs
  /\ calculate_running_time_percentage mixed_logs <= 100.
Proof.
  assert (H1 : Forall (fun r => 0 <= StatusLog.duration_minutes r)
                      (rows mixed_logs)).
  { repeat constructor; discriminate. }
  split; [exact H1|].
  exact (proj1 (percentages_in_range mixed_logs H1)).
Defined.

(** ** Zero total duration *)

(** X2: a non-empty collection in which every duration is 0 has no
    denominator to divide by: the three percentages are 0, the status
    distribution is the empty mapping and productivity reports a rate
    and a runtime of 0. *)
Theorem zero_durations_guarded (logs : StatusLogs) :
  Forall (fun r => StatusLog.duration_minutes r == 0) (rows logs) ->
  calculate_running_time_percentage logs == 0
  /\ calculate_idle_time_percentage logs == 0
  /\ calculate_downtime_percentage logs == 0
  /\ get_status_distribution logs = ∅
  /\ production_per_hour (calculate_productivity logs) == 0
  /\ total_runtime_hours (calculate_productivity logs) == 0.
Proof.
  intros Hz.
  assert (Ht : total_time logs == 0) by (apply col_sum_zero, Hz).
  assert (Hr : col_sum StatusLog.duration_minutes (with_status "RUNNING" (rows logs))
               == 0).
  { apply col_sum_zero, Forall_with_status, Hz. }
  unfold calculate_running_time_percentage, calculate_idle_time_percentage,
    calculate_downtime_percentage, get_status_distribution, calculate_productivity.
  destruct (empty_frame logs); [repeat split; reflexivity|].
  destruct (Qeq_dec (total_time logs) 0) as [_|Hnz]; [|contradiction].
  cbn [production_per_hour total_runtime_hours].
  set (mins := col_sum StatusLog.duration_minutes (with_status "RUNNING" (rows logs))) in *.
  assert (Hh : mins / 60 == 0) by (rewrite Hr; reflexivity).
  repeat split; try reflexivity.
  - destruct (Qlt_le_dec 0 (mins / 60)) as [Hlt|_]; [lra | reflexivity].
  - rewrite (round2_comp _ _ Hh). reflexivity.
Qed.

Lemma zero_durations_guarded_witness :
  Forall (fun r => StatusLog.duration_minutes r == 0) (rows zero_frame_example)
  /\ calculate_running_time_percentage zero_frame_example == 0
  /\ get_status_distribution zero_frame_example = ∅.
Proof.
  assert (H1 : Forall (fun r => StatusLog.duration_minutes r == 0)
                      (rows zero_frame_example)).
  { repeat constructor. }
  destruct (zero_durations_guarded zero_frame_example H1) as (Ha & _ & _ & Hd & _).
  split; [exact H1 | split; [exact Ha | exact Hd]].
Defined.

(** ** Row order *)

Lemma empty_frame_Permutation {R : Type} (df df' : DataFrame R) :
  rows df ≡ₚ rows df' -> empty_frame df = empty_frame df'.
Proof.
  unfold empty_frame. intros Hp.
  destruct (rows df) as [|r l], (rows df') as [|r' l']; try reflexivity.
  - apply Permutation_nil_l in Hp. discriminate.
  - apply Permutation_nil_r in Hp. discriminate.
Qed.



Lemma status_distribution_lookup_absent (logs : StatusLogs) (s : string) :
  s ∉ StatusLog.status <$> rows logs ->
  get_status_distribution logs !! s = None.
Proof.
  intros Hs. unfold get_status_distribution.
  destruct (empty_frame logs); [apply lookup_empty|].
  destruct (Qeq_dec (total_time logs) 0); [apply lookup_empty|].
  unfold status_share. rewrite !lookup_fmap.
  pose proof (groupby_sum_lookup StatusLog.status StatusLog.duration_minutes
                (rows logs) s) as Hl.
  destruct (groupby_sum StatusLog.status StatusLog.duration_minutes (rows logs) !! s)
    as [v|]; [destruct Hl; contradiction | reflexivity].
Qed.



(** ** Daily failure counts *)

Section counts.
Context {K : Type} `{Countable K}.

Lemma sum_counts_insert_fresh (m : gmap K nat) (k : K) (v : nat) :
  m !! k = None -> sum_counts (<[k := v]> m) = (v + sum_counts m)%nat.
Proof.
  intros Hk. unfold sum_counts.
  apply (map_fold_insert_L (fun _ v acc => (v + acc)%nat)); [|exact Hk].
  intros. lia.
Qed.

Lemma max_counts_insert_fresh (m : gmap K nat) (k : K) (v : nat) :
  m !! k = None -> max_counts (<[k := v]> m) = Nat.max v (max_counts m).
Proof.
  intros Hk. unfold max_counts.
  apply (map_fold_insert_L (fun _ v acc => Nat.max v acc)); [|exact Hk].
  intros. lia.
Qed.

Lemma sum_counts_empty : sum_counts (∅ : gmap K nat) = O.
Proof. unfold sum_counts. apply map_fold_empty. Qed.

Lemma max_counts_empty : max_counts (∅ : gmap K nat) = O.
Proof. unfold max_counts. apply map_fold_empty. Qed.

Lemma sum_counts_increment (m : gmap K nat) (k : K) :
  sum_counts (<[k := S (default O (m !! k))]> m) = S (sum_counts m).
Proof.
  destruct (m !! k) as [c|] eqn:Hk; simpl.
  - rewrite <- insert_delete_eq.
    rewrite sum_counts_insert_fresh by apply lookup_delete_eq.
    rewrite <- (insert_delete_id m k c Hk) at 2.
    rewrite sum_counts_insert_fresh by apply lookup_delete_eq. lia.
  - rewrite sum_counts_insert_fresh by exact Hk. lia.
Qed.

Lemma sum_counts_groupby (keys : list K) :
  sum_counts (groupby_size keys) = length keys.
Proof.
  induction keys as [|k keys IH]; simpl.
  - apply sum_counts_empty.
  - rewrite sum_counts_increment, IH. reflexivity.
Qed.

Lemma max_counts_upper (m : gmap K nat) (k : K) (c : nat) :
  m !! k = Some c -> (c <= max_counts m)%nat.
Proof.
  induction m as [|i x m Hi IH] using map_ind; [rewrite lookup_empty; discriminate|].
  rewrite max_counts_insert_fresh by exact Hi.
  rewrite lookup_insert. case_decide.
  - intros [= ->]. lia.
  - intros Hk. specialize (IH Hk). lia.
Qed.

Lemma max_counts_le_sum (m : gmap K nat) : (max_counts m <= sum_counts m)%nat.
Proof.
  induction m as [|i x m Hi IH] using map_ind.
  - rewrite max_counts_empty, sum_counts_empty. lia.
  - rewrite max_counts_insert_fresh, sum_counts_insert_fresh by exact Hi. lia.
Qed.

Lemma sum_counts_le_size_max (m : gmap K nat) :
  (sum_counts m <= size m * max_counts m)%nat.
Proof.
  induction m as [|i x m Hi IH] using map_ind.
  - rewrite sum_counts_empty. lia.
  - rewrite max_counts_insert_fresh, sum_counts_insert_fresh by exact Hi.
    rewrite map_size_insert_None by exact Hi.
    assert (size m * max_counts m <= size m * Nat.max x (max_counts m))%nat
      by (apply Nat.mul_le_mono_l; lia).
    lia.
Qed.

Lemma size_le_sum_counts (m : gmap K nat) :
  (forall k c, m !! k = Some c -> (1 <= c)%nat) -> (size m <= sum_counts m)%nat.
Proof.
  induction m as [|i x m Hi IH] using map_ind; intros Hpos.
  - rewrite map_size_empty. lia.
  - rewrite sum_counts_insert_fresh, map_size_insert_None by exact Hi.
    assert (1 <= x)%nat by (apply (Hpos i); apply lookup_insert_eq).
    assert (size m <= sum_counts m)%nat.
    { apply IH. intros k c Hk. apply (Hpos k).
      rewrite lookup_insert_ne; [exact Hk|]. intros ->. congruence. }
    lia.
Qed.

Lemma filter_eq_absent (keys : list K) (k : K) :
  k ∉ keys -> filter (fun x => x = k) keys = [].
Proof.
  induction keys as [|a keys IH]; [reflexivity|].
  rewrite not_elem_of_cons. intros [Hne Hk].
  rewrite filter_cons. case_decide; [congruence | exact (IH Hk)].
Qed.

(** The grouped sizes count the occurrences of each key. *)
Lemma groupby_size_lookup (keys : list K) (k : K) :
  groupby_size keys !! k
  = if decide (k ∈ keys) then Some (length (filter (fun x => x = k) keys)) else None.
Proof.
  induction keys as [|a keys IH].
  - change (groupby_size []) with (∅ : gmap K nat). rewrite lookup_empty.
    rewrite decide_False by apply not_elem_of_nil. reflexivity.
  - change (groupby_size (a :: keys))
      with (<[a := S (default O (groupby_size keys !! a))]> (groupby_size keys)).
    rewrite lookup_insert, filter_cons.
    destruct (decide (a = k)) as [->|Hne].
    + rewrite decide_True by apply list_elem_of_here.
      rewrite IH. simpl. f_equal. f_equal.
      case_decide as Hin; [reflexivity|].
      rewrite (filter_eq_absent keys k Hin). reflexivity.
    + rewrite IH. destruct (decide (k ∈ keys)) as [Hin|Hout].
      * rewrite decide_True by (apply list_elem_of_further, Hin). reflexivity.
      * rewrite decide_False; [reflexivity|].
        rewrite not_elem_of_cons. split; [congruence | exact Hout].
Qed.

Lemma groupby_size_positive (keys : list K) (k : K) (c : nat) :
  groupby_size keys !! k = Some c -> (1 <= c)%nat.
Proof.
  rewrite groupby_size_lookup. case_decide as Hin; [|discriminate].
  intros [= <-].
  apply elem_of_Permutation in Hin. destruct Hin as [l Hl].
  rewrite Hl, filter_cons, decide_True by reflexivity. simpl. lia.
Qed.

Lemma groupby_size_Permutation (keys keys' : list K) :
  keys ≡ₚ keys' -> groupby_size keys = groupby_size keys'.
Proof.
  intros Hp. apply map_eq. intros k. rewrite !groupby_size_lookup.
  destruct (decide (k ∈ keys)) as [Hin|Hout].
  - rewrite decide_True by (rewrite <- Hp; exact Hin).
    f_equal. rewrite Hp. reflexivity.
  - rewrite decide_False by (rewrite <- Hp; exact Hout). reflexivity.
Qed.

Lemma groupby_size_nonempty (k : K) (keys : list K) :
  (1 <= size (groupby_size (k :: keys)))%nat
  /\ (1 <= max_counts (groupby_size (k :: keys)))%nat.
Proof.
  split.
  - assert (Hne : size (groupby_size (k :: keys)) <> O); [|lia].
    apply map_size_non_empty_iff.
    change (groupby_size (k :: keys))
      with (<[k := S (default O (groupby_size keys !! k))]> (groupby_size keys)).
    apply insert_non_empty.
  - destruct (groupby_size (k :: keys) !! k) as [c|] eqn:E.
    + pose proof (groupby_size_positive _ _ _ E).
      pose proof (max_counts_upper _ _ _ E). lia.
    + rewrite groupby_size_lookup, decide_True in E by apply list_elem_of_here.
      discriminate.
Qed.

End counts.

Lemma nat_ratio_bounds (total days top : nat) :
  (1 <= days)%nat -> (days <= total)%nat -> (total <= days * top)%nat ->
  1 <= inject_Z (Z.of_nat total) / inject_Z (Z.of_nat days)
  /\ inject_Z (Z.of_nat total) / inject_Z (Z.of_nat days)
     <= inject_Z (Z.of_nat top).
Proof.
  intros Hd Hle Hmax.
  assert (Hdq : 0 < inject_Z (Z.of_nat days)).
  { change 0 with (inject_Z 0). rewrite <- Zlt_Qlt. lia. }
  split.
  - apply Qle_shift_div_l; [exact Hdq|]. rewrite Qmult_1_l.
    rewrite <- Zle_Qle. lia.
  - apply Qle_shift_div_r; [exact Hdq|].
    rewrite <- inject_Z_mult, <- Zle_Qle. nia.
Qed.

(** X4: for a non-empty failure collection the daily failure statistics
    are consistent with each other: total_failures is the number of
    rows, days_tracked and max_failures_per_day lie between 1 and
    total_failures, and avg_failures_per_day is total_failures divided by
    days_tracked, rounded to two decimals, and lies between 1 and
    max_failures_per_day. *)
Theorem daily_failure_rate_consistent (failures : FailureLogs) :
  rows failures <> [] ->
  let r := fst (calculate_daily_failure_rate failures) in
  total_failures r = length (rows failures)
  /\ (1 <= days_tracked r <= total_failures r)%nat
  /\ (1 <= max_failures_per_day r <= total_failures r)%nat
  /\ avg_failures_per_day r
     = round2 (inject_Z (Z.of_nat (total_failures r))
               / inject_Z (Z.of_nat (days_tracked r)))
  /\ 1 <= avg_failures_per_day r
  /\ avg_failures_per_day r <= inject_Z (Z.of_nat (max_failures_per_day r)).
Proof.
  intros Hne. unfold calculate_daily_failure_rate.
  rewrite (empty_frame_false failures Hne).
  cbn [fst rows total_failures days_tracked max_failures_per_day avg_failures_per_day].
  set (dates := map (fun r => ts_date (FailureLog.timestamp r)) (rows failures)).
  assert (Hlen : length dates = length (rows failures)) by apply length_map.
  pose proof (sum_counts_groupby dates) as Hsum.
  assert (Hcons : exists d ds, dates = d :: ds).
  { unfold dates. destruct (rows failures) as [|f fs]; [congruence|].
    simpl. eauto. }
  destruct Hcons as (d & ds & Ed).
  pose proof (groupby_size_nonempty d ds) as [Hsz Hmx]. rewrite <- Ed in Hsz, Hmx.
  pose proof (size_le_sum_counts (groupby_size dates) (groupby_size_positive dates))
    as Hsl.
  pose proof (max_counts_le_sum (groupby_size dates)) as Hml.
  pose proof (sum_counts_le_size_max (groupby_size dates)) as Hsm.
  rewrite Hsum in *. rewrite Hlen in *.
  destruct (nat_ratio_bounds (length (rows failures)) (size (groupby_size dates))
              (max_counts (groupby_size dates)) Hsz Hsl Hsm) as [Hlo Hhi].
  split; [reflexivity|]. split; [lia|]. split; [lia|]. split; [reflexivity|].
  split.
  - change 1 with (inject_Z 1). rewrite <- (round2_Z 1).
    apply round2_mono. exact Hlo.
  - rewrite <- (round2_Z (Z.of_nat (max_counts (groupby_size dates)))).
    apply round2_mono. exact Hhi.
Qed.

Lemma daily_failure_rate_consistent_witness :
  rows two_day_failures <> []
  /\ total_failures (fst (calculate_daily_failure_rate two_day_failures)) = 4%nat
  /\ (days_tracked (fst (calculate_daily_failure_rate two_day_failures))
      <= total_failures (fst (calculate_daily_failure_rate two_day_failures)))%nat.
Proof.
  assert (H1 : rows two_day_failures <> []) by discriminate.
  destruct (daily_failure_rate_consistent two_day_failures H1)
    as (Ht & Hd & _).
  split; [exact H1 | split; [exact Ht | exact (proj2 Hd)]].
Defined.

(** X5: the daily failure statistics do not depend on the order of the
    failure rows. *)
Theorem daily_failure_rate_order_independent (failures failures' : FailureLogs) :
  rows failures ≡ₚ rows failures' ->
  fst (calculate_daily_failure_rate failures)
  = fst (calculate_daily_failure_rate failures').
Proof.
  intros Hp. unfold calculate_daily_failure_rate.
  rewrite <- (empty_frame_Permutation failures failures' Hp).
  destruct (empty_frame failures); [reflexivity|].
  cbn [fst rows].
  assert (Hd : map (fun r => ts_date (FailureLog.timestamp r)) (rows failures)
               ≡ₚ map (fun r => ts_date (FailureLog.timestamp r)) (rows failures')).
  { apply (fmap_Permutation (fun r => ts_date (FailureLog.timestamp r))), Hp. }
  rewrite (groupby_size_Permutation _ _ Hd).
  rewrite (Permutation_length Hp). reflexivity.
Qed.

Lemma daily_failure_rate_order_independent_witness :
  rows two_day_failures ≡ₚ rows two_day_failures_swapped
  /\ fst (calculate_daily_failure_rate two_day_failures)
     = fst (calculate_daily_failure_rate two_day_failures_swapped).
Proof.
  assert (H1 : rows two_day_failures ≡ₚ rows two_day_failures_swapped).
  { simpl. apply perm_skip, perm_swap. }
  split; [exact H1|].
  exact (daily_failure_rate_order_independent _ _ H1).
Defined.

(** X6: the ['date'] column that [calculate_daily_failure_rate] leaves on
    the frame does not disturb anything the calculator computes
    afterwards: a second call returns the same statistics and the same
    frame, and MTBF, MTTR and OEE on the frame left behind are those of
    the original frame. *)
Theorem daily_failure_rate_frame_harmless
    (failures : FailureLogs) (logs : StatusLogs) (hours ideal planned : Q) :
  let after := snd (calculate_daily_failure_rate failures) in
  rows after = rows failures
  /\ calculate_daily_failure_rate after
     = (fst (calculate_daily_failure_rate failures), after)
  /\ calculate_mtbf after hours = calculate_mtbf failures hours
  /\ calculate_mttr after = calculate_mttr failures
  /\ calculate_oee logs after ideal planned
     = calculate_oee logs failures ideal planned.
Proof.
  unfold calculate_daily_failure_rate, empty_frame.
  destruct failures as [fs c]. cbn [rows].
  destruct fs as [|f fs]; repeat split; reflexivity.
Qed.

(** ** Productivity *)

Lemma with_status_idem (s : string) (l : list StatusLog.t) :
  with_status s (with_status s l) = with_status s l.
Proof.
  induction l as [|r l IH]; [reflexivity|].
  rewrite with_status_cons. case_decide as Hr; [|exact IH].
  rewrite with_status_cons, decide_True by exact Hr. rewrite IH. reflexivity.
Qed.

(** X7: productivity is computed from the RUNNING rows alone: dropping
    every row of another status from a collection that has a RUNNING row
    leaves the result unchanged. *)
Theorem productivity_ignores_other_statuses
    (logs : StatusLogs) (c : option (list Date)) :
  with_status "RUNNING" (rows logs) <> [] ->
  calculate_productivity (mkFrame (with_status "RUNNING" (rows logs)) c)
  = calculate_productivity logs.
Proof.
  intros Hrun.
  assert (Hne : rows logs <> []).
  { intros E. apply Hrun. rewrite E. reflexivity. }
  unfold calculate_productivity.
  rewrite (empty_frame_false logs Hne).
  rewrite (empty_frame_false (mkFrame (with_status "RUNNING" (rows logs)) c) Hrun).
  cbn [rows]. rewrite with_status_idem. reflexivity.
Qed.

Lemma productivity_ignores_other_statuses_witness :
  with_status "RUNNING" (rows mixed_logs) <> []
  /\ calculate_productivity (mkFrame (with_status "RUNNING" (rows mixed_logs)) None)
     = calculate_productivity mixed_logs.
Proof.
  assert (H1 : with_status "RUNNING" (rows mixed_logs) <> []) by discriminate.
  split; [exact H1|].
  exact (productivity_ignores_other_statuses mixed_logs None H1).
Defined.



(** ** Mean times *)

(** X9: for non-negative runtime hours the MTBF lies between 0 and the
    runtime rounded to two decimals, and with exactly one failure it is
    the rounded runtime itself. *)
Theorem mtbf_bounds (failures : FailureLogs) (hours : Q) :
  0 <= hours ->
  0 <= calculate_mtbf failures hours
  /\ calculate_mtbf failures hours <= round2 hours
  /\ (length (rows failures) = 1%nat ->
      calculate_mtbf failures hours == round2 hours).
Proof.
  intros Hh. unfold calculate_mtbf, empty_frame.
  destruct (rows failures) as [|f fs] eqn:El.
  - split; [apply Qle_refl|]. split; [apply round2_nonneg, Hh | discriminate].
  - destruct (Qeq_dec hours 0) as [E|Hnz].
    + split; [apply Qle_refl|]. split; [apply round2_nonneg, Hh|].
      intros _. rewrite (round2_comp _ _ E). reflexivity.
    + pose proof (length_pos_Q (f :: fs)) as Hn.
      assert (Hn1 : 1 <= inject_Z (Z.of_nat (length (f :: fs)))).
      { change 1 with (inject_Z 1). rewrite <- Zle_Qle. simpl length. lia. }
      assert (Hn0 : 0 < inject_Z (Z.of_nat (length (f :: fs)))) by lra.
      split; [|split].
      * apply round2_nonneg. apply Qle_shift_div_l; [exact Hn0 | lra].
      * apply round2_mono.
        assert (E1 : hours == hours / 1) by (field; discriminate).
        rewrite E1 at 2. apply Qdiv_le_denominator; [exact Hh | reflexivity | exact Hn1].
      * intros Hone. simpl length in Hone.
        assert (Efs : fs = []) by (destruct fs; [reflexivity | discriminate]).
        subst fs. simpl length.
        rewrite (round2_comp (hours / inject_Z (Z.of_nat 1)) hours); [reflexivity|].
        change (inject_Z (Z.of_nat 1)) with 1. field.
Qed.

Lemma mtbf_bounds_witness :
  0 <= 20
  /\ calculate_mtbf two_failures 20 <= round2 20
  /\ length (rows one_failure) = 1%nat
  /\ calculate_mtbf one_failure 20 == round2 20.
Proof.
  assert (H1 : 0 <= 20) by discriminate.
  assert (H2 : length (rows one_failure) = 1%nat) by reflexivity.
  split; [exact H1|].
  split; [exact (proj1 (proj2 (mtbf_bounds two_failures 20 H1)))|].
  split; [exact H2|].
  exact (proj2 (proj2 (mtbf_bounds one_failure 20 H1)) H2).
Defined.




(** ** Overall equipment effectiveness *)

Lemma oee_total_downtime_nonneg (failures : FailureLogs) :
  Forall (fun f => 0 <= FailureLog.downtime_minutes f) (rows failures) ->
  0 <= oee_total_downtime failures.
Proof.
  intros H. unfold oee_total_downtime.
  destruct (empty_frame failures); [apply Qle_refl | apply col_sum_nonneg, H].
Qed.

(** X11: a non-positive planned production time or ideal cycle time is
    never divided by.  With a non-positive ideal cycle time performance
    and oee are 0; with a non-positive planned production time and
    non-negative downtimes availability, performance and oee are all
    0. *)
Theorem oee_zero_denominators
    (logs : StatusLogs) (failures : FailureLogs) (ideal planned : Q) :
  (ideal <= 0 ->
   performance (calculate_oee logs failures ideal planned) == 0
   /\ oee (calculate_oee logs failures ideal planned) == 0)
  /\
  (planned <= 0 ->
   Forall (fun f => 0 <= FailureLog.downtime_minutes f) (rows failures) ->
   availability (calculate_oee logs failures ideal planned) == 0
   /\ performance (calculate_oee logs failures ideal planned) == 0
   /\ oee (calculate_oee logs failures ideal planned) == 0).
Proof.
  split.
  - intros Hi. unfold calculate_oee.
    destruct (empty_frame logs); [split; reflexivity|].
    cbn [performance oee].
    assert (Hp : oee_performance logs failures ideal planned = 0).
    { unfold oee_performance, oee_target_production.
      destruct (Qlt_le_dec 0 ideal) as [Hlt|_]; [lra|].
      destruct (Qlt_le_dec 0 0) as [Hlt|_]; [discriminate Hlt | reflexivity]. }
    rewrite Hp. split; [reflexivity|].
    rewrite (round2_comp (oee_availability failures planned * 0 * 100 / 10000) 0)
      by field.
    reflexivity.
  - intros Hpl Hd. unfold calculate_oee.
    destruct (empty_frame logs); [repeat split; reflexivity|].
    cbn [availability performance oee].
    assert (Ha : oee_availability failures planned = 0).
    { unfold oee_availability.
      destruct (Qlt_le_dec 0 planned) as [Hlt|_]; [lra | reflexivity]. }
    assert (Hp : oee_performance logs failures ideal planned = 0).
    { unfold oee_performance, oee_target_production, oee_operating_time.
      pose proof (oee_total_downtime_nonneg failures Hd) as H0.
      destruct (Qlt_le_dec 0 ideal) as [Hi|Hi].
      - destruct (Qlt_le_dec 0 ((planned - oee_total_downtime failures) / ideal))
          as [Hlt|_]; [|reflexivity].
        exfalso.
        assert (Hq : (planned - oee_total_downtime failures) / ideal <= 0).
        { apply Qle_shift_div_r; [exact Hi | lra]. }
        lra.
      - destruct (Qlt_le_dec 0 0) as [Hlt|_]; [discriminate Hlt | reflexivity]. }
    rewrite Ha, Hp. repeat split; reflexivity.
Qed.

Lemma oee_zero_denominators_witness :
  0 <= 0
  /\ -480 <= 0
  /\ Forall (fun f => 0 <= FailureLog.downtime_minutes f) (rows one_failure)
  /\ performance (calculate_oee shift_logs one_failure 0 480) == 0
  /\ availability (calculate_oee shift_logs one_failure 1 (-480)) == 0.
Proof.
  assert (H1 : 0 <= 0) by discriminate.
  assert (H2 : -480 <= 0) by discriminate.
  assert (H3 : Forall (fun f => 0 <= FailureLog.downtime_minutes f)
                      (rows one_failure)).
  { repeat constructor; discriminate. }
  split; [exact H1 | split; [exact H2 | split; [exact H3 |]]].
  split.
  - exact (proj1 (proj1 (oee_zero_denominators shift_logs one_failure 0 480) H1)).
  - exact (proj1 (proj2 (oee_zero_denominators shift_logs one_failure 1 (-480)) H2 H3)).
Defined.

(** X12: with no failures and a positive planned production time a
    non-empty log collection gets availability 100, and the oee then
    equals the performance before capping, rounded. *)
Theorem oee_without_failures
    (logs : StatusLogs) (failures : FailureLogs) (ideal planned : Q) :
  rows logs <> [] -> rows failures = [] -> 0 < planned ->
  availability (calculate_oee logs failures ideal planned) == 100
  /\ oee (calculate_oee logs failures ideal planned)
     = round2 (oee_performance logs failures ideal planned).
Proof.
  intros Hne Hnf Hpl. unfold calculate_oee.
  rewrite (empty_frame_false logs Hne). cbn [availability oee].
  assert (Ha : oee_availability failures planned == 100).
  { unfold oee_availability, oee_operating_time, oee_total_downtime.
    rewrite (empty_frame_nil failures Hnf).
    destruct (Qlt_le_dec 0 planned) as [_|Hle]; [|lra].
    field. lra. }
  split.
  - rewrite (round2_comp (Qmin (oee_availability failures planned) 100) 100);
      [reflexivity|].
    rewrite Ha. reflexivity.
  - apply round2_comp. rewrite Ha. field.
Qed.

Lemma oee_without_failures_witness :
  rows shift_logs <> [] /\ rows no_failures = [] /\ 0 < 480
  /\ availability (calculate_oee shift_logs no_failures 1 480) == 100.
Proof.
  assert (H1 : rows shift_logs <> []) by discriminate.
  assert (H2 : rows no_failures = []) by reflexivity.
  assert (H3 : 0 < 480) by reflexivity.
  split; [exact H1 | split; [exact H2 | split; [exact H3 |]]].
  exact (proj1 (oee_without_failures shift_logs no_failures 1 480 H1 H2 H3)).
Defined.



(** ** Status distribution and the percentages *)

Lemma status_distribution_Some (logs : StatusLogs) (s : string) (v : Q) :
  get_status_distribution logs !! s = Some v ->
  rows logs <> [] /\ ~ total_time logs == 0 /\ s ∈ StatusLog.status <$> rows logs.
Proof.
  intros Hv.
  destruct (decide (s ∈ StatusLog.status <$> rows logs)) as [Hin|Hout].
  - unfold get_status_distribution, empty_frame in Hv.
    destruct (rows logs) as [|r l] eqn:El; [rewrite lookup_empty in Hv; discriminate|].
    destruct (Qeq_dec (total_time logs) 0) as [E|E];
      [rewrite lookup_empty in Hv; discriminate|].
    split; [discriminate | split; [exact E | exact Hin]].
  - rewrite (status_distribution_lookup_absent logs s Hout) in Hv. discriminate.
Qed.

(** X14: with non-negative durations every value of the status
    distribution lies between 0 and 100. *)
Theorem status_distribution_values_in_range (logs : StatusLogs) (s : string) (v : Q) :
  Forall (fun r => 0 <= StatusLog.duration_minutes r) (rows logs) ->
  get_status_distribution logs !! s = Some v ->
  0 <= v /\ v <= 100.
Proof.
  intros Hnn Hv.
  destruct (status_distribution_Some logs s v Hv) as (Hne & Hnz & Hin).
  rewrite (status_distribution_lookup logs s Hne Hnz Hin) in Hv.
  injection Hv as <-.
  pose proof (total_time_pos logs Hnn Hnz) as Hpos.
  destruct (col_sum_filter_le StatusLog.duration_minutes
              (fun r => StatusLog.status r = s) (rows logs) Hnn) as [H0 H1].
  destruct (share_in_range _ _ H0 H1 Hpos) as [Hlo Hhi].
  split; [apply round2_nonneg, Hlo | apply round2_le_100, Hhi].
Qed.

Lemma status_distribution_values_in_range_witness :
  Forall (fun r => 0 <= StatusLog.duration_minutes r) (rows mixed_logs)
  /\ get_status_distribution mixed_logs !! "OFFLINE" = Some (3333 # 100)
  /\ 0 <= 3333 # 100 /\ 3333 # 100 <= 100.
Proof.
  assert (H1 : Forall (fun r => 0 <= StatusLog.duration_minutes r) (rows mixed_logs)).
  { repeat constructor; discriminate. }
  assert (H2 : get_status_distribution mixed_logs !! "OFFLINE" = Some (3333 # 100)).
  { vm_compute. reflexivity. }
  split; [exact H1 | split; [exact H2 |]].
  exact (status_distribution_values_in_range mixed_logs "OFFLINE" (3333 # 100) H1 H2).
Defined.






(** ** Percentages of a combined collection *)








(** * Sample data generation *)

Import DataGenerator.

Lemma uniform_range (a b u : Q) :
  a <= b -> 0 <= u -> u < 1 ->
  a <= uniform a b u /\ (a < b -> uniform a b u < b).
Proof.
  intros Hab H0 H1. unfold uniform.
  assert (Hm : 0 <= (b - a) * u) by (apply Qmult_le_0_compat; lra).
  split; [lra|]. intros Hlt.
  assert (Hm2 : (b - a) * u < (b - a) * 1).
  { apply Qmult_lt_l; lra. }
  lra.
Qed.

(** X17: whatever the random module returns, a generated log entry has
    one of the statuses RUNNING, IDLE, MAINTENANCE, FAILED (never
    OFFLINE), a duration between 10 and 240 minutes, and a production
    count that is between 20 and 150 for RUNNING and 0 otherwise. *)
Theorem sample_log_entry_shape (d : Draws) :
  possible d ->
  let '(status, duration, production) := sample_log_entry d in
  status ∈ tracked_statuses
  /\ 10 <= duration /\ duration <= 240
  /\ (status = "RUNNING" -> (20 <= production <= 150)%Z)
  /\ (status <> "RUNNING" -> production = 0%Z).
Proof.
  intros (Hp & [H0 H1] & Hc). unfold sample_log_entry, choice.
  destruct (uniform_range 30 180 (unit_draw d) ltac:(discriminate) H0 H1) as [Ha1 Ha2].
  destruct (uniform_range 10 60 (unit_draw d) ltac:(discriminate) H0 H1) as [Hb1 Hb2].
  destruct (uniform_range 60 240 (unit_draw d) ltac:(discriminate) H0 H1) as [Hc1 Hc2].
  destruct (uniform_range 30 120 (unit_draw d) ltac:(discriminate) H0 H1) as [Hd1 Hd2].
  specialize (Ha2 eq_refl). specialize (Hb2 eq_refl).
  specialize (Hc2 eq_refl). specialize (Hd2 eq_refl).
  unfold tracked_statuses.
  destruct (pick d) as [|[|[|[|[|[|[|[|n]]]]]]]]; simpl in Hp; try lia; simpl;
    (split; [rewrite !elem_of_cons; tauto|]);
    (split; [lra|]); (split; [lra|]);
    (split; [intros E; try discriminate E; exact Hc | intros E; congruence]).
Qed.

Lemma sample_log_entry_shape_witness :
  possible (mkDraws 5 (1 # 2) 33)
  /\ sample_log_entry (mkDraws 5 (1 # 2) 33) = ("IDLE", 10 + (60 - 10) * (1 # 2), 0%Z)
  /\ "IDLE" ∈ tracked_statuses.
Proof.
  assert (H1 : possible (mkDraws 5 (1 # 2) 33)).
  { unfold possible. simpl. split; [lia|]. split; [split; [discriminate | reflexivity]|]. lia. }
  split; [exact H1 | split; [reflexivity|]].
  exact (proj1 (sample_log_entry_shape (mkDraws 5 (1 # 2) 33) H1)).
Defined.

Lemma sample_log_row_fields (machine : string) (now : Timestamp) (d : Draws) :
  StatusLog.status (sample_log_row machine now d) = (sample_log_entry d).1.1
  /\ StatusLog.duration_minutes (sample_log_row machine now d) = (sample_log_entry d).1.2
  /\ StatusLog.production_count (sample_log_row machine now d) = (sample_log_entry d).2
  /\ StatusLog.machine_id (sample_log_row machine now d) = machine
  /\ StatusLog.timestamp (sample_log_row machine now d) = now.
Proof.
  unfold sample_log_row. destruct (sample_log_entry d) as [[s u] p].
  repeat split.
Qed.




(** * Storage *)

Import DatabaseHandler.

(** ** Order of dates and timestamps *)

Lemma date_eq_fields (d1 d2 : Date) :
  d1 = d2 <-> year d1 = year d2 /\ month d1 = month d2 /\ day d1 = day d2.
Proof.
  split; [intros ->; auto|].
  destruct d1, d2; simpl. intros (-> & -> & ->). reflexivity.
Qed.

Lemma date_trichotomy (d1 d2 : Date) : date_lt d1 d2 \/ d1 = d2 \/ date_lt d2 d1.
Proof. rewrite date_eq_fields. unfold date_lt. lia. Qed.

Lemma date_lt_trans (d1 d2 d3 : Date) : date_lt d1 d2 -> date_lt d2 d3 -> date_lt d1 d3.
Proof. unfold date_lt. lia. Qed.

Lemma date_lt_irrefl (d : Date) : ~ date_lt d d.
Proof. unfold date_lt. lia. Qed.

#[global] Instance timestamp_le_total : Total timestamp_le.
Proof.
  intros t1 t2. unfold timestamp_le.
  destruct (date_trichotomy (ts_date t1) (ts_date t2)) as [H|[H|H]]; auto.
  destruct (Z.le_ge_cases (ts_seconds t1) (ts_seconds t2)) as [Hs|Hs].
  - left. right. split; [exact H | exact Hs].
  - right. right. split; [symmetry; exact H | exact Hs].
Qed.

#[global] Instance timestamp_le_trans : Transitive timestamp_le.
Proof.
  intros t1 t2 t3. unfold timestamp_le.
  intros [H12|[E12 H12]] [H23|[E23 H23]].
  - left. eapply date_lt_trans; eassumption.
  - left. rewrite <- E23. exact H12.
  - left. rewrite E12. exact H23.
  - right. split; [congruence | lia].
Qed.

#[global] Instance newest_first_total {A : Type} (time : A -> Timestamp) :
  Total (newest_first time).
Proof. intros r1 r2. unfold newest_first. destruct (total timestamp_le (time r1) (time r2)); auto. Qed.

#[global] Instance newest_first_trans {A : Type} (time : A -> Timestamp) :
  Transitive (newest_first time).
Proof. intros r1 r2 r3. unfold newest_first. intros H12 H23. etransitivity; eassumption. Qed.

Lemma elem_of_merge_sort {A : Type} (R : relation A) `{forall x y, Decision (R x y)}
    (l : list A) (x : A) :
  x ∈ merge_sort R l <-> x ∈ l.
Proof. rewrite (merge_sort_Permutation R l). reflexivity. Qed.

Lemma merge_sort_nil {A : Type} (R : relation A) `{forall x y, Decision (R x y)} :
  merge_sort R [] = [].
Proof. reflexivity. Qed.

(** ** Queries *)

Lemma selected_blank_machine (s e : option Date) (m : string) (t : Timestamp) :
  selected (Some "") s e m t <-> selected None s e m t.
Proof. unfold selected. intuition. Qed.

(** X19: both queries return exactly the stored rows that meet the
    conditions given (machine, first and last date), newest first; an
    empty machine id selects the rows of every machine, as no machine id
    does. *)
Theorem queries_select_and_order
    (machine : option string) (start_date end_date : option Date) (db : Database) :
  (forall r, r ∈ get_machine_logs machine start_date end_date db
             <-> r ∈ machine_logs db
                 /\ selected machine start_date end_date
                      (StatusLog.machine_id r.2) (StatusLog.timestamp r.2))
  /\ StronglySorted (newest_first (fun r => StatusLog.timestamp r.2))
       (get_machine_logs machine start_date end_date db)
  /\ (forall r, r ∈ get_failures machine start_date end_date db
                <-> r ∈ failures db
                    /\ selected machine start_date end_date
                         (FailureLog.machine_id r.2) (FailureLog.timestamp r.2))
  /\ StronglySorted (newest_first (fun r => FailureLog.timestamp r.2))
       (get_failures machine start_date end_date db)
  /\ get_machine_logs (Some "") start_date end_date db
     = get_machine_logs None start_date end_date db
  /\ get_failures (Some "") start_date end_date db
     = get_failures None start_date end_date db.
Proof.
  unfold get_machine_logs, get_failures.
  split; [|split; [|split; [|split; [|split]]]].
  - intros r. rewrite elem_of_merge_sort, list_elem_of_filter. tauto.
  - apply StronglySorted_merge_sort; apply _.
  - intros r. rewrite elem_of_merge_sort, list_elem_of_filter. tauto.
  - apply StronglySorted_merge_sort; apply _.
  - f_equal. apply list_filter_iff. intros r. apply selected_blank_machine.
  - f_equal. apply list_filter_iff. intros r. apply selected_blank_machine.
Qed.

(** ** Machines *)

(** X20: after [add_machine] the machine listing contains the machine
    with the data given and no other row with its id, the other machines
    are listed as before, and logs and failures are untouched. *)
Theorem add_machine_stored
    (now : Timestamp) (id name type place : string) (db : Database) :
  let db' := add_machine now id name type place db in
  let m := mkMachine id name type place now in
  m ∈ get_all_machines db'
  /\ (forall m', m' ∈ get_all_machines db' -> machine_id m' = id -> m' = m)
  /\ (forall m', machine_id m' <> id ->
        (m' ∈ get_all_machines db' <-> m' ∈ get_all_machines db))
  /\ machine_logs db' = machine_logs db
  /\ failures db' = failures db.
Proof.
  cbn zeta. unfold get_all_machines, add_machine. cbn [machines machine_logs failures].
  split; [|split; [|split; [|split]]]; try reflexivity.
  - rewrite elem_of_merge_sort, elem_of_app, list_elem_of_singleton. right. reflexivity.
  - intros m'. rewrite elem_of_merge_sort, elem_of_app, list_elem_of_filter,
      list_elem_of_singleton.
    intros [[Hne _]|He] Hid; [contradiction | exact He].
  - intros m' Hne.
    rewrite !elem_of_merge_sort, elem_of_app, list_elem_of_filter,
      list_elem_of_singleton.
    split.
    + intros [[_ Hin]|He]; [exact Hin|]. subst m'. simpl in Hne. contradiction.
    + intros Hin. left. split; assumption.
Qed.

(** ** Logging *)

Lemma filter_snoc_out {A : Type} (P : A -> Prop) `{forall x, Decision (P x)}
    (l : list A) (x : A) :
  ~ P x -> filter P (l ++ [x]) = filter P l.
Proof.
  intros Hx. rewrite filter_app, filter_cons, decide_False by exact Hx.
  rewrite filter_nil. apply app_nil_r.
Qed.

Lemma log_machine_status_well_formed
    (now : Timestamp) (machine status : string) (duration : Q) (production : Z)
    (notes : string) (db : Database) :
  well_formed db ->
  well_formed (log_machine_status now machine status duration production notes db).
Proof.
  intros (Hm & Hl & Hlr & Hf & Hfr & Hl0 & Hf0).
  assert (Hfresh : forall r, r ∈ machine_logs db -> r.1 <> (log_seq db + 1)%Z).
  { intros r Hr. rewrite Forall_forall in Hlr. specialize (Hlr r Hr). lia. }
  unfold well_formed, log_machine_status.
  cbn [machines machine_logs failures log_seq failure_seq].
  split; [exact Hm|].
  split; [|split; [|split; [exact Hf | split; [exact Hfr | split; [lia | exact Hf0]]]]].
  - rewrite fmap_app. apply NoDup_app. split; [exact Hl|].
    split; [|apply NoDup_singleton].
    intros k Hk. cbn. rewrite list_elem_of_singleton. intros ->.
    apply list_elem_of_fmap in Hk. destruct Hk as (r & E & Hr).
    apply (Hfresh r Hr). symmetry. exact E.
  - apply Forall_app. split.
    + eapply Forall_impl; [exact Hlr|]. intros r Hr. cbn beta in *. lia.
    + apply Forall_singleton. cbn. lia.
Qed.

(** X21: [log_machine_status] stores one row under a key no stored row
    has: the machine's logs then contain the row with the values given
    and the current time, the number of logs grows by one, the queries
    for every other machine return what they returned before, and
    machines and failures are untouched. *)
Theorem log_machine_status_stored
    (now : Timestamp) (machine status : string) (duration : Q) (production : Z)
    (notes : string) (db : Database) :
  well_formed db ->
  let db' := log_machine_status now machine status duration production notes db in
  let row := StatusLog.mk machine status now duration production notes in
  (log_seq db + 1, row)%Z ∈ get_machine_logs (Some machine) None None db'
  /\ (forall r, r ∈ machine_logs db -> r.1 <> (log_seq db + 1)%Z)
  /\ length (get_machine_logs None None None db')
     = S (length (get_machine_logs None None None db))
  /\ (forall other s e, other <> "" -> other <> machine ->
        get_machine_logs (Some other) s e db' = get_machine_logs (Some other) s e db)
  /\ machines db' = machines db
  /\ failures db' = failures db
  /\ well_formed db'.
Proof.
  intros Hwf.
  pose proof (log_machine_status_well_formed now machine status duration production
                notes db Hwf) as Hwf'.
  destruct Hwf as (Hm & Hl & Hlr & Hf & Hfr & Hl0 & Hf0). cbn zeta.
  unfold log_machine_status, get_machine_logs in *.
  cbn [machines machine_logs failures log_seq failure_seq].
  assert (Hfresh : forall r, r ∈ machine_logs db -> r.1 <> (log_seq db + 1)%Z).
  { intros r Hr. rewrite Forall_forall in Hlr. specialize (Hlr r Hr). lia. }
  split; [|split; [exact Hfresh | split; [|split; [|split; [|split]]]]];
    try reflexivity; try exact Hwf'.
  - rewrite elem_of_merge_sort, list_elem_of_filter, elem_of_app, list_elem_of_singleton.
    split; [|right; reflexivity].
    unfold selected. cbn. auto.
  - rewrite !(Permutation_length (merge_sort_Permutation _ _)).
    rewrite filter_app, length_app, filter_cons, decide_True; [simpl; lia|].
    unfold selected. auto.
  - intros other s e Hne Hother. f_equal. apply filter_snoc_out.
    unfold selected. cbn. intros [[E|E] _]; congruence.
Qed.

Lemma sample_session_well_formed : well_formed sample_session.
Proof.
  unfold well_formed.
  split; [apply (bool_decide_unpack _); vm_compute; exact I|].
  split; [apply (bool_decide_unpack _); vm_compute; exact I|].
  split; [vm_compute; repeat constructor; intros H; discriminate H|].
  split; [apply (bool_decide_unpack _); vm_compute; exact I|].
  split; [vm_compute; repeat constructor; intros H; discriminate H|].
  split; discriminate.
Qed.

Lemma log_machine_status_stored_witness :
  well_formed sample_session
  /\ (4%Z, StatusLog.mk "M002" "RUNNING" next_day 45 12 "")
     ∈ get_machine_logs (Some "M002") None None
         (log_machine_status next_day "M002" "RUNNING" 45 12 "" sample_session).
Proof.
  split; [exact sample_session_well_formed|].
  exact (proj1 (log_machine_status_stored next_day "M002" "RUNNING" 45 12 ""
                  sample_session sample_session_well_formed)).
Defined.

Lemma log_failure_well_formed
    (now : Timestamp) (machine kind : string) (downtime : Q) (resolution : string)
    (db : Database) :
  well_formed db -> well_formed (log_failure now machine kind downtime resolution db).
Proof.
  intros (Hm & Hl & Hlr & Hf & Hfr & Hl0 & Hf0).
  assert (Hfresh : forall r, r ∈ failures db -> r.1 <> (failure_seq db + 1)%Z).
  { intros r Hr. rewrite Forall_forall in Hfr. specialize (Hfr r Hr). lia. }
  unfold well_formed, log_failure.
  cbn [machines machine_logs failures log_seq failure_seq].
  split; [exact Hm|]. split; [exact Hl|]. split; [exact Hlr|].
  split; [|split; [|split; [exact Hl0 | lia]]].
  - rewrite fmap_app. apply NoDup_app. split; [exact Hf|].
    split; [|apply NoDup_singleton].
    intros k Hk. cbn. rewrite list_elem_of_singleton. intros ->.
    apply list_elem_of_fmap in Hk. destruct Hk as (r & E & Hr).
    apply (Hfresh r Hr). symmetry. exact E.
  - apply Forall_app. split.
    + eapply Forall_impl; [exact Hfr|]. intros r Hr. cbn beta in *. lia.
    + apply Forall_singleton. cbn. lia.
Qed.

(** X22: [log_failure] stores one failure row under a key no stored row
    has: the machine's failures then contain the row with the values
    given and the current time, the number of failures grows by one, the
    queries for every other machine return what they returned before,
    and machines and logs are untouched. *)
Theorem log_failure_stored
    (now : Timestamp) (machine kind : string) (downtime : Q) (resolution : string)
    (db : Database) :
  well_formed db ->
  let db' := log_failure now machine kind downtime resolution db in
  let row := FailureLog.mk machine kind now downtime resolution in
  (failure_seq db + 1, row)%Z ∈ get_failures (Some machine) None None db'
  /\ (forall r, r ∈ failures db -> r.1 <> (failure_seq db + 1)%Z)
  /\ length (get_failures None None None db')
     = S (length (get_failures None None None db))
  /\ (forall other s e, other <> "" -> other <> machine ->
        get_failures (Some other) s e db' = get_failures (Some other) s e db)
  /\ machines db' = machines db
  /\ machine_logs db' = machine_logs db
  /\ well_formed db'.
Proof.
  intros Hwf.
  pose proof (log_failure_well_formed now machine kind downtime resolution db Hwf)
    as Hwf'.
  destruct Hwf as (Hm & Hl & Hlr & Hf & Hfr & Hl0 & Hf0). cbn zeta.
  unfold log_failure, get_failures in *.
  cbn [machines machine_logs failures log_seq failure_seq].
  assert (Hfresh : forall r, r ∈ failures db -> r.1 <> (failure_seq db + 1)%Z).
  { intros r Hr. rewrite Forall_forall in Hfr. specialize (Hfr r Hr). lia. }
  split; [|split; [exact Hfresh | split; [|split; [|split; [|split]]]]];
    try reflexivity; try exact Hwf'.
  - rewrite elem_of_merge_sort, list_elem_of_filter, elem_of_app, list_elem_of_singleton.
    split; [|right; reflexivity].
    unfold selected. cbn. auto.
  - rewrite !(Permutation_length (merge_sort_Permutation _ _)).
    rewrite filter_app, length_app, filter_cons, decide_True; [simpl; lia|].
    unfold selected. auto.
  - intros other s e Hne Hother. f_equal. apply filter_snoc_out.
    unfold selected. cbn. intros [[E|E] _]; congruence.
Qed.

Lemma log_failure_stored_witness :
  well_formed sample_session
  /\ (2%Z, FailureLog.mk "M002" "Overheating" next_day 25 "Cooled down system")
     ∈ get_failures (Some "M002") None None
         (log_failure next_day "M002" "Overheating" 25 "Cooled down system"
                      sample_session).
Proof.
  split; [exact sample_session_well_formed|].
  exact (proj1 (log_failure_stored next_day "M002" "Overheating" 25
                  "Cooled down system" sample_session sample_session_well_formed)).
Defined.

(** ** Deleting a machine *)

Lemma filter_none {A : Type} (P : A -> Prop) `{forall x, Decision (P x)} (l : list A) :
  (forall x, x ∈ l -> ~ P x) -> filter P l = [].
Proof.
  induction l as [|a l IH]; [reflexivity|]. intros Hall.
  rewrite filter_cons, decide_False by (apply Hall, list_elem_of_here).
  apply IH. intros x Hx. apply Hall, list_elem_of_further, Hx.
Qed.

(** X23: [delete_machine] removes the machine together with all its logs
    and failures and nothing else: afterwards the queries for that
    machine are empty and the machine is not listed, the queries for any
    other machine and the listing of the other machines are as before,
    and deleting it again changes nothing. *)
Theorem delete_machine_removes
    (machine : string) (db : Database) (s e : option Date) :
  let db' := delete_machine machine db in
  (machine <> "" ->
   get_machine_logs (Some machine) s e db' = []
   /\ get_failures (Some machine) s e db' = [])
  /\ (forall m, m ∈ get_all_machines db' -> machine_id m <> machine)
  /\ (forall other, other <> "" -> other <> machine ->
        get_machine_logs (Some other) s e db' = get_machine_logs (Some other) s e db
        /\ get_failures (Some other) s e db' = get_failures (Some other) s e db)
  /\ (forall m, machine_id m <> machine ->
        (m ∈ get_all_machines db' <-> m ∈ get_all_machines db))
  /\ delete_machine machine db' = db'.
Proof.
  cbn zeta. unfold delete_machine, get_machine_logs, get_failures, get_all_machines.
  cbn [machines machine_logs failures log_seq failure_seq].
  split; [|split; [|split; [|split]]].
  - intros Hne. split.
    + rewrite filter_none; [reflexivity|].
      intros r Hr. apply list_elem_of_filter in Hr. destruct Hr as [Hr _].
      unfold selected. intros [[E|E] _]; congruence.
    + rewrite filter_none; [reflexivity|].
      intros r Hr. apply list_elem_of_filter in Hr. destruct Hr as [Hr _].
      unfold selected. intros [[E|E] _]; congruence.
  - intros m. rewrite elem_of_merge_sort, list_elem_of_filter. tauto.
  - intros other Hne Hother. split; f_equal; apply list_filter_filter_l;
      intros r; unfold selected; intros [[E|E] _]; congruence.
  - intros m Hm. rewrite !elem_of_merge_sort, list_elem_of_filter. tauto.
  - f_equal; apply list_filter_filter_l; auto.
Qed.

Lemma delete_machine_removes_witness :
  "M001" <> ""
  /\ get_machine_logs (Some "M001") None None (delete_machine "M001" sample_session) = []
  /\ get_machine_logs (Some "M002") None None (delete_machine "M001" sample_session)
     = get_machine_logs (Some "M002") None None sample_session.
Proof.
  assert (H1 : "M001" <> "") by discriminate.
  assert (H2 : "M002" <> "") by discriminate.
  assert (H3 : "M002" <> "M001") by discriminate.
  destruct (delete_machine_removes "M001" sample_session None None)
    as (Ha & _ & Hb & _).
  split; [exact H1 | split; [exact (proj1 (Ha H1)) | exact (proj1 (Hb "M002" H2 H3))]].
Defined.

(** ** Sessions *)

Lemma NoDup_fmap_filter {A B : Type} (f : A -> B) (P : A -> Prop)
    `{forall x, Decision (P x)} (l : list A) :
  NoDup (f <$> l) -> NoDup (f <$> filter P l).
Proof.
  induction l as [|a l IH]; [intros _; constructor|].
  rewrite fmap_cons, NoDup_cons. intros [Ha Hl].
  rewrite filter_cons. case_decide; [|exact (IH Hl)].
  rewrite fmap_cons, NoDup_cons. split; [|exact (IH Hl)].
  intros Hin. apply Ha. apply list_elem_of_fmap in Hin.
  destruct Hin as (x & E & Hx). apply list_elem_of_filter in Hx.
  rewrite E. apply list_elem_of_fmap_2. apply Hx.
Qed.

Lemma Forall_filter_keep {A : Type} (P Q : A -> Prop) `{forall x, Decision (Q x)}
    (l : list A) :
  Forall P l -> Forall P (filter Q l).
Proof.
  rewrite !Forall_forall. intros Hl x Hx.
  apply list_elem_of_filter in Hx. apply Hl, Hx.
Qed.

Lemma add_machine_well_formed (now : Timestamp) (id name type place : string)
    (db : Database) :
  well_formed db -> well_formed (add_machine now id name type place db).
Proof.
  intros (Hm & Hrest). unfold well_formed, add_machine.
  cbn [machines machine_logs failures log_seq failure_seq].
  split; [|exact Hrest].
  rewrite fmap_app. apply NoDup_app.
  split; [apply NoDup_fmap_filter, Hm|]. split; [|apply NoDup_singleton].
  intros k Hk. cbn. rewrite list_elem_of_singleton. intros ->.
  apply list_elem_of_fmap in Hk. destruct Hk as (m & E & Hin).
  apply list_elem_of_filter in Hin. destruct Hin as [Hne _]. congruence.
Qed.

Lemma delete_machine_well_formed (id : string) (db : Database) :
  well_formed db -> well_formed (delete_machine id db).
Proof.
  intros (Hm & Hl & Hlr & Hf & Hfr & H0). unfold well_formed, delete_machine.
  cbn [machines machine_logs failures log_seq failure_seq].
  split; [apply NoDup_fmap_filter, Hm|].
  split; [apply NoDup_fmap_filter, Hl|].
  split; [apply Forall_filter_keep, Hlr|].
  split; [apply NoDup_fmap_filter, Hf|].
  split; [apply Forall_filter_keep, Hfr | exact H0].
Qed.

Lemma perform_well_formed (c : Call) (db : Database) :
  well_formed db -> well_formed (perform c db).
Proof.
  intros Hwf. destruct c; simpl.
  - apply add_machine_well_formed, Hwf.
  - apply log_machine_status_well_formed, Hwf.
  - apply log_failure_well_formed, Hwf.
  - apply delete_machine_well_formed, Hwf.
Qed.

Lemma foldl_perform_well_formed (calls : list Call) (db : Database) :
  well_formed db -> well_formed (foldl (fun db c => perform c db) db calls).
Proof.
  revert db. induction calls as [|c calls IH]; intros db Hwf; [exact Hwf|].
  simpl. apply IH, perform_well_formed, Hwf.
Qed.

Lemma init_database_well_formed : well_formed init_database.
Proof.
  unfold well_formed, init_database. simpl.
  repeat split; try constructor; discriminate.
Qed.

(** X24: whatever calls a session makes, in whatever order, the
    database stays consistent: the machine listing never shows two rows
    with the same id, no two log rows and no two failure rows share a
    key, also after deletions, and every key lies between 1 and the
    number of rows ever stored in its table. *)
Theorem session_keeps_keys_unique (calls : list Call) :
  let db := session calls in
  NoDup (machine_id <$> get_all_machines db)
  /\ NoDup (get_machine_logs None None None db).*1
  /\ NoDup (get_failures None None None db).*1
  /\ Forall (fun r => (1 <= r.1 <= log_seq db)%Z) (machine_logs db)
  /\ Forall (fun r => (1 <= r.1 <= failure_seq db)%Z) (failures db).
Proof.
  cbn zeta.
  pose proof (foldl_perform_well_formed calls init_database init_database_well_formed)
    as Hwf.
  fold (session calls) in Hwf.
  destruct Hwf as (Hm & Hl & Hlr & Hf & Hfr & _).
  unfold get_all_machines, get_machine_logs, get_failures.
  split; [|split; [|split; [|split]]].
  - rewrite (merge_sort_Permutation machine_id_le (machines (session calls))).
    exact Hm.
  - rewrite (merge_sort_Permutation _ _). apply NoDup_fmap_filter, Hl.
  - rewrite (merge_sort_Permutation _ _). apply NoDup_fmap_filter, Hf.
  - eapply Forall_impl; [exact Hlr|]. intros r Hr. cbn beta in *. lia.
  - eapply Forall_impl; [exact Hfr|]. intros r Hr. cbn beta in *. lia.
Qed.

(** ** The dashboard's latest status *)

Lemma timestamp_le_refl (t : Timestamp) : timestamp_le t t.
Proof. destruct (total timestamp_le t t); assumption. Qed.

(** X25: the status the dashboard shows for a machine is OFFLINE when
    the query returns no log; otherwise it is the status of a stored
    log that meets the query's conditions and is at least as recent as
    every other stored log that meets them. *)
Theorem latest_status_is_newest
    (machine : option string) (start_date end_date : option Date) (db : Database) :
  let result := get_machine_logs machine start_date end_date db in
  (result = [] -> latest_status result = "OFFLINE")
  /\ (result <> [] ->
      exists r, r ∈ machine_logs db
        /\ selected machine start_date end_date
             (StatusLog.machine_id r.2) (StatusLog.timestamp r.2)
        /\ latest_status result = StatusLog.status r.2
        /\ forall r', r' ∈ machine_logs db ->
             selected machine start_date end_date
               (StatusLog.machine_id r'.2) (StatusLog.timestamp r'.2) ->
             timestamp_le (StatusLog.timestamp r'.2) (StatusLog.timestamp r.2)).
Proof.
  cbn zeta. split; [intros ->; reflexivity|].
  intros Hne.
  assert (Hmem : forall r, r ∈ get_machine_logs machine start_date end_date db
             <-> r ∈ machine_logs db
                 /\ selected machine start_date end_date
                      (StatusLog.machine_id r.2) (StatusLog.timestamp r.2)).
  { intros r. unfold get_machine_logs.
    rewrite elem_of_merge_sort, list_elem_of_filter. tauto. }
  assert (Hsorted : StronglySorted (newest_first (fun r => StatusLog.timestamp r.2))
                      (get_machine_logs machine start_date end_date db)).
  { unfold get_machine_logs. apply StronglySorted_merge_sort; apply _. }
  destruct (get_machine_logs machine start_date end_date db) as [|x rest];
    [congruence|].
  exists x.
  destruct (proj1 (Hmem x) (list_elem_of_here x rest)) as [Hx Hsel].
  split; [exact Hx | split; [exact Hsel | split; [reflexivity|]]].
  intros r' Hr' Hsel'.
  assert (Hin : r' ∈ x :: rest) by (apply Hmem; split; assumption).
  apply elem_of_cons in Hin. destruct Hin as [->|Hin]; [apply timestamp_le_refl|].
  apply StronglySorted_inv in Hsorted. destruct Hsorted as [_ Hall].
  rewrite Forall_forall in Hall. apply (Hall r' Hin).
Qed.

Lemma latest_status_is_newest_witness :
  get_machine_logs (Some "M009") None None sample_session = []
  /\ latest_status (get_machine_logs (Some "M009") None None sample_session)
     = "OFFLINE"
  /\ get_machine_logs (Some "M001") None None sample_session <> []
  /\ exists r, r ∈ machine_logs sample_session
       /\ latest_status (get_machine_logs (Some "M001") None None sample_session)
          = StatusLog.status r.2.
Proof.
  assert (H1 : get_machine_logs (Some "M009") None None sample_session = []).
  { vm_compute. reflexivity. }
  assert (H2 : get_machine_logs (Some "M001") None None sample_session <> []).
  { vm_compute. discriminate. }
  split; [exact H1|].
  split; [exact (proj1 (latest_status_is_newest (Some "M009") None None
                          sample_session) H1)|].
  split; [exact H2|].
  destruct (proj2 (latest_status_is_newest (Some "M001") None None sample_session) H2)
    as (r & Hr & _ & Hs & _).
  exists r. split; [exact Hr | exact Hs].
Defined.

(** ** Generated machines *)

Import DataGenerator.

Lemma zeros_string_of_uint (k : nat) (d : Decimal.uint) :
  (zeros k ++ NilEmpty.string_of_uint d)%string
  = NilEmpty.string_of_uint (Nat.iter k Decimal.D0 d).
Proof.
  induction k as [|k IH]; [reflexivity|].
  change (String "0"%char (zeros k ++ NilEmpty.string_of_uint d)%string
          = String "0"%char (NilEmpty.string_of_uint (Nat.iter k Decimal.D0 d))).
  f_equal. exact IH.
Qed.

Lemma of_uint_leading_zeros (k : nat) (d : Decimal.uint) :
  Nat.of_uint (Nat.iter k Decimal.D0 d) = Nat.of_uint d.
Proof.
  induction k as [|k IH]; [reflexivity|].
  simpl. rewrite <- IH. reflexivity.
Qed.

(** Reading a zero-padded decimal gives the number back. *)
Lemma zero_pad_decimal_read (width i : nat) :
  NilEmpty.uint_of_string (zero_pad width (decimal i))
  = Some (Nat.iter (width - String.length (decimal i)) Decimal.D0 (Nat.to_uint i)).
Proof.
  unfold zero_pad, decimal. rewrite zeros_string_of_uint. apply NilEmpty.usu.
Qed.

Lemma zero_pad_decimal_inj (width i j : nat) :
  zero_pad width (decimal i) = zero_pad width (decimal j) -> i = j.
Proof.
  intros E.
  pose proof (zero_pad_decimal_read width i) as Hi.
  pose proof (zero_pad_decimal_read width j) as Hj.
  rewrite E, Hj in Hi. injection Hi as Hi.
  apply (f_equal Nat.of_uint) in Hi.
  rewrite !of_uint_leading_zeros, !DecimalNat.Unsigned.of_to in Hi.
  symmetry. exact Hi.
Qed.

Example sample_machine_ids :
  sample_machine_id 1 = "M001" /\ sample_machine_id 42 = "M042"
  /\ sample_machine_id 1234 = "M1234".
Proof. repeat split; reflexivity. Qed.

(** X26: the generator gives different machines different ids. *)
Theorem sample_machine_id_distinct (i j : nat) :
  i <> j -> sample_machine_id i <> sample_machine_id j.
Proof.
  intros Hne E. apply Hne. unfold sample_machine_id in E.
  injection E as E. exact (zero_pad_decimal_inj 3 i j E).
Qed.

Lemma sample_machine_id_distinct_witness :
  (9 <> 10)%nat /\ sample_machine_id 9 <> sample_machine_id 10.
Proof.
  assert (H : (9 <> 10)%nat) by lia.
  split; [exact H | exact (sample_machine_id_distinct 9 10 H)].
Defined.

Lemma filter_all {A : Type} (P : A -> Prop) `{forall x, Decision (P x)} (l : list A) :
  (forall x, x ∈ l -> P x) -> filter P l = l.
Proof.
  induction l as [|a l IH]; [reflexivity|]. intros Hall.
  rewrite filter_cons, decide_True by (apply Hall, list_elem_of_here).
  f_equal. apply IH. intros x Hx. apply Hall, list_elem_of_further, Hx.
Qed.

Lemma generated_ids_snoc (count : nat) :
  generated_ids (S count) = generated_ids count ++ [sample_machine_id (S count)].
Proof.
  unfold generated_ids. rewrite seq_S, fmap_app. reflexivity.
Qed.

Lemma generated_ids_fresh (count : nat) :
  sample_machine_id (S count) ∉ generated_ids count.
Proof.
  unfold generated_ids. intros Hin.
  apply list_elem_of_fmap in Hin. destruct Hin as (i & E & Hi).
  apply elem_of_seq in Hi.
  assert (Hne : S count <> i) by lia.
  exact (sample_machine_id_distinct (S count) i Hne E).
Qed.

Lemma fmap_filter_machine_id (id : string) (ms : list Machine) :
  machine_id <$> filter (fun m => machine_id m <> id) ms
  = filter (fun x => x <> id) (machine_id <$> ms).
Proof.
  induction ms as [|m ms IH]; [reflexivity|].
  rewrite fmap_cons, !filter_cons.
  destruct (decide (machine_id m <> id)); [rewrite fmap_cons, IH|rewrite IH]; reflexivity.
Qed.

Lemma generate_sample_machines_S (count : nat) (rnd : nat -> MachineDraws)
    (clock : nat -> Timestamp) (db : Database) :
  generate_sample_machines (S count) rnd clock db
  = add_machine (clock (S count)) (sample_machine_id (S count))
      (choice machine_types (type_pick (rnd (S count))) ++ " Machine "
       ++ decimal (S count))%string
      (choice machine_types (type_pick (rnd (S count))))
      (choice locations (location_pick (rnd (S count))))
      (generate_sample_machines count rnd clock db).
Proof.
  unfold generate_sample_machines. rewrite seq_S, foldl_app. reflexivity.
Qed.

(** The ids stored after a run: the ids that were there and are not
    generated, then the generated ones. *)
Lemma generate_sample_machines_ids (count : nat) (rnd : nat -> MachineDraws)
    (clock : nat -> Timestamp) (db : Database) :
  machine_id <$> machines (generate_sample_machines count rnd clock db)
  = filter (fun x => x ∉ generated_ids count) (machine_id <$> machines db)
    ++ generated_ids count.
Proof.
  induction count as [|count IH].
  - unfold generate_sample_machines, generated_ids. simpl.
    rewrite app_nil_r. symmetry. apply filter_all.
    intros x _. apply not_elem_of_nil.
  - rewrite generate_sample_machines_S. unfold add_machine. cbn [machines].
    rewrite fmap_app, fmap_filter_machine_id, IH, filter_app. cbn [fmap list_fmap].
    rewrite generated_ids_snoc, app_assoc. f_equal. f_equal.
    + rewrite list_filter_filter. apply list_filter_iff. intros x.
      rewrite elem_of_app, list_elem_of_singleton. tauto.
    + apply filter_all. intros x Hx E. subst x.
      exact (generated_ids_fresh count Hx).
Qed.

Lemma generate_sample_machines_rest (count : nat) (rnd : nat -> MachineDraws)
    (clock : nat -> Timestamp) (db : Database) :
  machine_logs (generate_sample_machines count rnd clock db) = machine_logs db
  /\ failures (generate_sample_machines count rnd clock db) = failures db
  /\ log_seq (generate_sample_machines count rnd clock db) = log_seq db
  /\ failure_seq (generate_sample_machines count rnd clock db) = failure_seq db.
Proof.
  induction count as [|count IH]; [repeat split|].
  rewrite generate_sample_machines_S. unfold add_machine.
  cbn [machine_logs failures log_seq failure_seq]. exact IH.
Qed.

Lemma length_get_all_machines (db : Database) :
  length (get_all_machines db) = length (machine_id <$> machines db).
Proof.
  unfold get_all_machines.
  rewrite (Permutation_length (merge_sort_Permutation _ _)), length_fmap. reflexivity.
Qed.

Lemma generated_ids_length (count : nat) : length (generated_ids count) = count.
Proof. unfold generated_ids. rewrite length_fmap. apply length_seq. Qed.

(** X27: [generate_sample_machines count] leaves, besides the machines
    that were stored under other ids, exactly the machines M001 ... with
    one row each: run on a new database it leaves [count] machines, a
    second run replaces them without adding any, and logs and failures
    are untouched. *)
Theorem generate_sample_machines_count (count : nat)
    (rnd rnd' : nat -> MachineDraws) (clock clock' : nat -> Timestamp)
    (db : Database) :
  let once := generate_sample_machines count rnd clock db in
  let twice := generate_sample_machines count rnd' clock' once in
  length (get_all_machines (generate_sample_machines count rnd clock init_database))
  = count
  /\ length (get_all_machines twice) = length (get_all_machines once)
  /\ (forall i, (1 <= i <= count)%nat ->
        sample_machine_id i ∈ machine_id <$> get_all_machines once)
  /\ machine_logs once = machine_logs db
  /\ failures once = failures db.
Proof.
  cbn zeta. split; [|split; [|split]].
  - rewrite length_get_all_machines, generate_sample_machines_ids.
    simpl. apply generated_ids_length.
  - rewrite !length_get_all_machines, !generate_sample_machines_ids.
    rewrite filter_app, !length_app, !generated_ids_length.
    rewrite (filter_none (fun x => x ∉ generated_ids count) (generated_ids count))
      by (intros x Hx Hn; exact (Hn Hx)).
    rewrite list_filter_filter_r by auto. simpl. lia.
  - intros i Hi. unfold get_all_machines.
    rewrite (merge_sort_Permutation _ _), generate_sample_machines_ids.
    apply elem_of_app. right. unfold generated_ids.
    apply list_elem_of_fmap_2, elem_of_seq. lia.
  - split; apply generate_sample_machines_rest.
Qed.

(** ** Generated logs *)

Lemma generate_one_log_eq (rnd : nat -> Draws) (clock : nat -> Timestamp)
    (id : string) (db : Database) (k : nat) :
  generate_one_log rnd clock id (db, k)
  = (mkDatabase (machines db)
       (machine_logs db ++ [((log_seq db + 1)%Z, sample_log_row id (clock k) (rnd k))])
       (failures db) (log_seq db + 1) (failure_seq db),
     S k).
Proof.
  unfold generate_one_log, sample_log_row, log_machine_status.
  destruct (sample_log_entry (rnd k)) as [[s d] p]. reflexivity.
Qed.

Lemma stored_logs_cons (rnd : nat -> Draws) (clock : nat -> Timestamp)
    (first_key : Z) (k0 : nat) (id : string) (ids : list string) :
  stored_logs rnd clock first_key k0 (id :: ids)
  = (first_key, sample_log_row id (clock k0) (rnd k0))
    :: stored_logs rnd clock (first_key + 1) (S k0) ids.
Proof.
  unfold stored_logs. rewrite imap_cons. f_equal.
  - rewrite Z.add_0_r, Nat.add_0_r. reflexivity.
  - apply imap_ext. intros j x _. cbn.
    replace (first_key + 1 + Z.of_nat j)%Z with (first_key + Z.of_nat (S j))%Z by lia.
    replace (S (k0 + j)) with (k0 + S j)%nat by lia. reflexivity.
Qed.

Lemma run_logs_cons (rnd : nat -> Draws) (clock : nat -> Timestamp)
    (id : string) (ids : list string) (st : Database * nat) :
  run_logs rnd clock (id :: ids) st
  = run_logs rnd clock ids (generate_one_log rnd clock id st).
Proof. reflexivity. Qed.

Lemma run_logs_spec (rnd : nat -> Draws) (clock : nat -> Timestamp)
    (ids : list string) (db : Database) (k0 : nat) :
  run_logs rnd clock ids (db, k0)
  = (mkDatabase (machines db)
       (machine_logs db ++ stored_logs rnd clock (log_seq db + 1) k0 ids)
       (failures db) (log_seq db + Z.of_nat (length ids)) (failure_seq db),
     (k0 + length ids)%nat).
Proof.
  revert db k0. induction ids as [|id ids IH]; intros db k0.
  - unfold run_logs, stored_logs. simpl.
    rewrite app_nil_r, Z.add_0_r, Nat.add_0_r. destruct db; reflexivity.
  - rewrite run_logs_cons, generate_one_log_eq, IH.
    cbn [machines machine_logs failures log_seq failure_seq].
    rewrite stored_logs_cons, <- app_assoc. simpl app. simpl length.
    f_equal; [|lia]. f_equal. lia.
Qed.

Lemma run_logs_app (rnd : nat -> Draws) (clock : nat -> Timestamp)
    (ids1 ids2 : list string) (st : Database * nat) :
  run_logs rnd clock (ids1 ++ ids2) st
  = run_logs rnd clock ids2 (run_logs rnd clock ids1 st).
Proof. unfold run_logs. apply foldl_app. Qed.

Lemma inner_loop_run (rnd : nat -> Draws) (clock : nat -> Timestamp)
    (id : string) (a k : nat) (st : Database * nat) :
  foldl (fun st (_ : nat) => generate_one_log rnd clock id st) st (seq a k)
  = run_logs rnd clock (replicate k id) st.
Proof.
  revert a st. induction k as [|k IH]; intros a st; [reflexivity|].
  simpl. rewrite IH. reflexivity.
Qed.

Lemma day_loop_run (rnd : nat -> Draws) (clock : nat -> Timestamp)
    (id : string) (logs_per_day a days : nat) (st : Database * nat) :
  foldl (fun st (_ : nat) =>
           foldl (fun st (_ : nat) => generate_one_log rnd clock id st)
                 st (seq 0 logs_per_day))
        st (seq a days)
  = run_logs rnd clock (replicate (days * logs_per_day) id) st.
Proof.
  revert a st. induction days as [|days IH]; intros a st; [reflexivity|].
  simpl seq. simpl foldl. rewrite IH, inner_loop_run, <- run_logs_app.
  rewrite <- replicate_add. reflexivity.
Qed.

Lemma machine_loop_run (rnd : nat -> Draws) (clock : nat -> Timestamp)
    (days logs_per_day : nat) (ms : list Machine) (st : Database * nat) :
  foldl (fun st machine =>
           foldl (fun st (_ : nat) =>
                    foldl (fun st (_ : nat) =>
                             generate_one_log rnd clock (machine_id machine) st)
                          st (seq 0 logs_per_day))
                 st (seq 0 days))
        st ms
  = run_logs rnd clock
      (ms ≫= (fun m => replicate (days * logs_per_day) (machine_id m))) st.
Proof.
  revert st. induction ms as [|m ms IH]; intros st; [reflexivity|].
  simpl foldl. rewrite IH, day_loop_run, <- run_logs_app. reflexivity.
Qed.

Lemma generate_sample_logs_run (days logs_per_day : nat)
    (rnd : nat -> Draws) (clock : nat -> Timestamp) (db : Database) :
  generate_sample_logs days logs_per_day rnd clock db
  = run_logs rnd clock (log_targets days logs_per_day db) (db, O).
Proof.
  unfold generate_sample_logs, log_targets.
  destruct (get_all_machines db) as [|m ms] eqn:E; [reflexivity|].
  apply machine_loop_run.
Qed.

Lemma log_targets_length (days logs_per_day : nat) (db : Database) :
  length (log_targets days logs_per_day db)
  = (length (get_all_machines db) * (days * logs_per_day))%nat.
Proof.
  unfold log_targets. induction (get_all_machines db) as [|m ms IH]; [reflexivity|].
  rewrite bind_cons, length_app, length_replicate, IH. simpl. lia.
Qed.

Lemma stored_logs_length (rnd : nat -> Draws) (clock : nat -> Timestamp)
    (first_key : Z) (k0 : nat) (ids : list string) :
  length (stored_logs rnd clock first_key k0 ids) = length ids.
Proof. unfold stored_logs. apply length_imap. Qed.

Lemma log_targets_machines (days logs_per_day : nat) (db : Database) (id : string) :
  id ∈ log_targets days logs_per_day db -> id ∈ machine_id <$> get_all_machines db.
Proof.
  unfold log_targets. intros Hin. apply list_elem_of_bind in Hin.
  destruct Hin as (m & Hid & Hm). apply elem_of_replicate in Hid.
  destruct Hid as [-> _]. apply list_elem_of_fmap_2, Hm.
Qed.

(** X28: [generate_sample_logs] stores machines × days × logs_per_day
    rows, as many as the [total_logs] it reports, and nothing when there
    is no machine; the rows go to the listed machines in listing order,
    get consecutive new keys, and each carries the time at which it was
    stored, whatever the number of days; machines and failures are
    untouched. *)
Theorem generate_sample_logs_stored (days logs_per_day : nat)
    (rnd : nat -> Draws) (clock : nat -> Timestamp) (db : Database) :
  let result := generate_sample_logs days logs_per_day rnd clock db in
  let targets := log_targets days logs_per_day db in
  machine_logs result.1
  = machine_logs db ++ stored_logs rnd clock (log_seq db + 1) 0 targets
  /\ result.2 = (length (get_all_machines db) * (days * logs_per_day))%nat
  /\ length (machine_logs result.1)
     = (length (machine_logs db) + result.2)%nat
  /\ (forall r, r ∈ stored_logs rnd clock (log_seq db + 1) 0 targets ->
        StatusLog.machine_id r.2 ∈ machine_id <$> get_all_machines db
        /\ exists k, (k < result.2)%nat
             /\ r.1 = (log_seq db + 1 + Z.of_nat k)%Z
             /\ StatusLog.timestamp r.2 = clock k
             /\ r.2 = sample_log_row (StatusLog.machine_id r.2) (clock k) (rnd k))
  /\ machines result.1 = machines db
  /\ failures result.1 = failures db.
Proof.
  cbn zeta. rewrite generate_sample_logs_run, run_logs_spec. cbn [fst snd].
  cbn [machines machine_logs failures]. rewrite Nat.add_0_l.
  split; [reflexivity|]. split; [apply log_targets_length|].
  split; [rewrite length_app, stored_logs_length; reflexivity|].
  split; [|split; reflexivity].
  intros r Hr. unfold stored_logs in Hr.
  apply elem_of_lookup_imap in Hr. destruct Hr as (k & id & -> & Hk).
  cbn [fst snd]. rewrite !Nat.add_0_l.
  destruct (sample_log_row_fields id (clock k) (rnd k)) as (_ & _ & _ & Eid & Ets).
  rewrite Eid. split.
  - apply (log_targets_machines days logs_per_day db).
    apply list_elem_of_lookup. eauto.
  - exists k. split; [apply lookup_lt_Some in Hk; exact Hk|].
    split; [reflexivity | split; [exact Ets | reflexivity]].
Qed.

(** ** Generated failures *)

Lemma stored_failures_S (ids : list string) (rnd : nat -> FailureDraws)
    (clock : nat -> Timestamp) (first_key : Z) (count : nat) :
  stored_failures ids rnd clock first_key (S count)
  = stored_failures ids rnd clock first_key count
    ++ [((first_key + Z.of_nat count)%Z, sample_failure_row ids rnd clock count)].
Proof. unfold stored_failures. rewrite seq_S, fmap_app. reflexivity. Qed.

Lemma failure_loop_spec (ids : list string) (rnd : nat -> FailureDraws)
    (clock : nat -> Timestamp) (count : nat) (db : Database) :
  foldl (fun db i =>
           log_failure (clock i) (choice ids (machine_pick (rnd i)))
             (choice failure_types (kind_pick (rnd i)))
             (uniform 15 240 (downtime_draw (rnd i)))
             (choice resolutions (resolution_pick (rnd i))) db)
        db (seq 0 count)
  = mkDatabase (machines db) (machine_logs db)
      (failures db ++ stored_failures ids rnd clock (failure_seq db + 1) count)
      (log_seq db) (failure_seq db + Z.of_nat count).
Proof.
  induction count as [|count IH].
  - unfold stored_failures. simpl. rewrite app_nil_r, Z.add_0_r.
    destruct db; reflexivity.
  - rewrite seq_S, foldl_app, IH. simpl foldl. unfold log_failure.
    cbn [machines machine_logs failures log_seq failure_seq].
    rewrite stored_failures_S, <- app_assoc. unfold sample_failure_row.
    f_equal; [|lia]. f_equal. f_equal. f_equal. f_equal. lia.
Qed.

Lemma stored_failures_length (ids : list string) (rnd : nat -> FailureDraws)
    (clock : nat -> Timestamp) (first_key : Z) (count : nat) :
  length (stored_failures ids rnd clock first_key count) = count.
Proof. unfold stored_failures. rewrite length_fmap. apply length_seq. Qed.

Lemma choice_elem_of (seq : list string) (i : nat) :
  (i < length seq)%nat -> choice seq i ∈ seq.
Proof.
  intros Hi. unfold choice. apply list_elem_of_In, nth_In. exact Hi.
Qed.

(** X29: when machines exist, [generate_sample_failures count] stores
    [count] failure rows under consecutive new keys, each at the time of
    its iteration, for a machine of the listing and with a downtime
    between 15 and 240 minutes; with no machine it stores nothing;
    machines and logs are untouched. *)
Theorem generate_sample_failures_stored (count : nat)
    (rnd : nat -> FailureDraws) (clock : nat -> Timestamp) (db : Database) :
  let ids := machine_id <$> get_all_machines db in
  let db' := generate_sample_failures count rnd clock db in
  (get_all_machines db = [] -> db' = db)
  /\ (get_all_machines db <> [] ->
      failures db'
      = failures db ++ stored_failures ids rnd clock (failure_seq db + 1) count
      /\ length (failures db') = (length (failures db) + count)%nat)
  /\ (forall i, (machine_pick (rnd i) < length ids)%nat ->
        0 <= downtime_draw (rnd i) -> downtime_draw (rnd i) < 1 ->
        let row := sample_failure_row ids rnd clock i in
        FailureLog.machine_id row ∈ ids
        /\ 15 <= FailureLog.downtime_minutes row
        /\ FailureLog.downtime_minutes row <= 240
        /\ FailureLog.timestamp row = clock i)
  /\ machines db' = machines db
  /\ machine_logs db' = machine_logs db.
Proof.
  cbn zeta. unfold generate_sample_failures.
  split; [intros ->; reflexivity|].
  split; [|split].
  - intros Hne. destruct (get_all_machines db) as [|m ms] eqn:E; [congruence|].
    rewrite failure_loop_spec. cbn [failures].
    split; [reflexivity|]. rewrite length_app, stored_failures_length. reflexivity.
  - intros i Hp H0 H1. cbn zeta. unfold sample_failure_row.
    cbn [FailureLog.machine_id FailureLog.downtime_minutes FailureLog.timestamp].
    destruct (uniform_range 15 240 (downtime_draw (rnd i)) ltac:(discriminate) H0 H1)
      as [Hlo Hhi].
    split; [apply choice_elem_of, Hp|].
    split; [exact Hlo | split; [apply Qlt_le_weak, (Hhi eq_refl) | reflexivity]].
  - destruct (get_all_machines db) as [|m ms] eqn:E; [split; reflexivity|].
    rewrite failure_loop_spec. split; reflexivity.
Qed.

Lemma generate_sample_failures_stored_witness :
  get_all_machines sample_session <> []
  /\ length (failures (generate_sample_failures 3 sample_failure_draws
                         (fun _ => next_day) sample_session))
     = (length (failures sample_session) + 3)%nat
  /\ (machine_pick (sample_failure_draws 0)
      < length (machine_id <$> get_all_machines sample_session))%nat
  /\ 0 <= downtime_draw (sample_failure_draws 0)
  /\ downtime_draw (sample_failure_draws 0) < 1
  /\ 15 <= FailureLog.downtime_minutes
             (sample_failure_row (machine_id <$> get_all_machines sample_session)
                sample_failure_draws (fun _ => next_day) 0).
Proof.
  assert (H1 : get_all_machines sample_session <> []).
  { vm_compute. discriminate. }
  assert (H2 : (machine_pick (sample_failure_draws 0)
                < length (machine_id <$> get_all_machines sample_session))%nat).
  { vm_compute. lia. }
  assert (H3 : 0 <= downtime_draw (sample_failure_draws 0)) by discriminate.
  assert (H4 : downtime_draw (sample_failure_draws 0) < 1) by reflexivity.
  destruct (generate_sample_failures_stored 3 sample_failure_draws
              (fun _ => next_day) sample_session) as (_ & Ha & Hb & _).
  split; [exact H1 | split; [exact (proj2 (Ha H1))|]].
  split; [exact H2 | split; [exact H3 | split; [exact H4|]]].
  exact (proj1 (proj2 (Hb 0%nat H2 H3 H4))).
Defined.

(** ** A complete dataset *)

Lemma length_get_machine_logs_all (db : Database) :
  length (get_machine_logs None None None db) = length (machine_logs db).
Proof.
  unfold get_machine_logs.
  rewrite (Permutation_length (merge_sort_Permutation _ _)).
  rewrite filter_all; [reflexivity|]. intros r _. unfold selected. auto.
Qed.

Lemma length_get_failures_all (db : Database) :
  length (get_failures None None None db) = length (failures db).
Proof.
  unfold get_failures.
  rewrite (Permutation_length (merge_sort_Permutation _ _)).
  rewrite filter_all; [reflexivity|]. intros r _. unfold selected. auto.
Qed.

Lemma generate_sample_machines_well_formed (count : nat)
    (rnd : nat -> MachineDraws) (clock : nat -> Timestamp) (db : Database) :
  well_formed db -> well_formed (generate_sample_machines count rnd clock db).
Proof.
  intros Hwf. induction count as [|count IH]; [exact Hwf|].
  rewrite generate_sample_machines_S. apply add_machine_well_formed, IH.
Qed.

Lemma run_logs_well_formed (rnd : nat -> Draws) (clock : nat -> Timestamp)
    (ids : list string) (st : Database * nat) :
  well_formed st.1 -> well_formed (run_logs rnd clock ids st).1.
Proof.
  revert st. induction ids as [|id ids IH]; intros [db k] Hwf; [exact Hwf|].
  rewrite run_logs_cons. apply IH.
  unfold generate_one_log. destruct (sample_log_entry (rnd k)) as [[s d] p].
  cbn [fst]. apply log_machine_status_well_formed, Hwf.
Qed.

Lemma generate_sample_failures_well_formed (count : nat)
    (rnd : nat -> FailureDraws) (clock : nat -> Timestamp) (db : Database) :
  well_formed db -> well_formed (generate_sample_failures count rnd clock db).
Proof.
  intros Hwf. unfold generate_sample_failures.
  destruct (get_all_machines db) as [|m ms]; [exact Hwf|].
  induction count as [|count IH]; [exact Hwf|].
  rewrite seq_S, foldl_app. simpl foldl. apply log_failure_well_formed, IH.
Qed.

(** X30: run on a new database, [generate_complete_dataset num_machines
    days] leaves [num_machines] machines, [num_machines × days × 15]
    logs and [num_machines × 3] failures, whatever is drawn and whenever
    the rows are stored, and the database is consistent. *)
Theorem generate_complete_dataset_counts (num_machines days : nat) (w : World) :
  let db := generate_complete_dataset num_machines days w init_database in
  length (get_all_machines db) = num_machines
  /\ length (get_machine_logs None None None db) = (num_machines * (days * 15))%nat
  /\ length (get_failures None None None db) = (num_machines * 3)%nat
  /\ well_formed db.
Proof.
  cbn zeta. unfold generate_complete_dataset.
  set (db1 := generate_sample_machines num_machines (machine_draws w)
                (machine_clock w) init_database).
  set (r2 := generate_sample_logs days 15 (log_draws w) (log_clock w) db1).
  set (db3 := generate_sample_failures (num_machines * 3) (failure_draws w)
                (failure_clock w) r2.1).
  assert (Hn1 : length (get_all_machines db1) = num_machines).
  { unfold db1. rewrite length_get_all_machines, generate_sample_machines_ids.
    simpl. apply generated_ids_length. }
  destruct (generate_sample_machines_rest num_machines (machine_draws w)
              (machine_clock w) init_database) as (Hl1 & Hf1 & _).
  fold db1 in Hl1, Hf1. simpl in Hl1, Hf1.
  assert (Hr2 : r2 = run_logs (log_draws w) (log_clock w) (log_targets days 15 db1)
                       (db1, O)) by apply generate_sample_logs_run.
  assert (Hm2 : machines r2.1 = machines db1)
    by (rewrite Hr2, run_logs_spec; reflexivity).
  assert (Hf2 : failures r2.1 = []).
  { rewrite Hr2, run_logs_spec. cbn [fst failures]. exact Hf1. }
  assert (Hl2 : length (machine_logs r2.1) = (num_machines * (days * 15))%nat).
  { rewrite Hr2, run_logs_spec. cbn [fst machine_logs].
    rewrite Hl1, length_app, stored_logs_length, log_targets_length, Hn1.
    reflexivity. }
  assert (Hg2 : get_all_machines r2.1 = get_all_machines db1).
  { unfold get_all_machines. rewrite Hm2. reflexivity. }
  assert (Hwf1 : well_formed db1).
  { apply generate_sample_machines_well_formed, init_database_well_formed. }
  assert (Hwf2 : well_formed r2.1).
  { rewrite Hr2. apply run_logs_well_formed. exact Hwf1. }
  assert (H3 : machines db3 = machines r2.1 /\ machine_logs db3 = machine_logs r2.1
               /\ length (failures db3) = (num_machines * 3)%nat).
  { unfold db3, generate_sample_failures. rewrite Hg2.
    destruct (get_all_machines db1) as [|m ms] eqn:E.
    - simpl in Hn1. subst num_machines.
      rewrite Hf2. repeat split.
    - rewrite failure_loop_spec. cbn [machines machine_logs failures].
      rewrite Hf2, length_app, stored_failures_length. repeat split. }
  destruct H3 as (Hm3 & Hl3 & Hf3).
  split; [|split; [|split]].
  - unfold get_all_machines. rewrite Hm3. fold (get_all_machines r2.1).
    rewrite Hg2. exact Hn1.
  - rewrite length_get_machine_logs_all, Hl3. exact Hl2.
  - rewrite length_get_failures_all. exact Hf3.
  - apply generate_sample_failures_well_formed, Hwf2.
Qed.

(** ** Worked runs *)

Lemma add_machine_stored_witness :
  let db' := add_machine next_day "M001" "CNC Machine 1b" "CNC" "Floor C"
               sample_session in
  let m2 := mkMachine "M002" "Lathe Machine 2" "Lathe" "Floor B" morning in
  mkMachine "M001" "CNC Machine 1b" "CNC" "Floor C" next_day ∈ get_all_machines db'
  /\ machine_id m2 <> "M001"
  /\ m2 ∈ get_all_machines sample_session
  /\ m2 ∈ get_all_machines db'.
Proof.
  cbn zeta.
  assert (H1 : machine_id (mkMachine "M002" "Lathe Machine 2" "Lathe" "Floor B" morning)
               <> "M001") by discriminate.
  assert (H2 : mkMachine "M002" "Lathe Machine 2" "Lathe" "Floor B" morning
               ∈ get_all_machines sample_session).
  { apply list_elem_of_In. vm_compute. auto. }
  destruct (add_machine_stored next_day "M001" "CNC Machine 1b" "CNC" "Floor C"
              sample_session) as (Ha & _ & Hb & _).
  split; [exact Ha | split; [exact H1 | split; [exact H2|]]].
  exact (proj2 (Hb _ H1) H2).
Defined.

Lemma generate_sample_machines_count_witness :
  (1 <= 2 <= 3)%nat
  /\ sample_machine_id 2
     ∈ machine_id <$> get_all_machines
         (generate_sample_machines 3 sample_machine_draws (fun _ => morning)
            sample_session)
  /\ length (get_all_machines
               (generate_sample_machines 3 sample_machine_draws (fun _ => morning)
                  init_database)) = 3%nat.
Proof.
  assert (H1 : (1 <= 2 <= 3)%nat) by lia.
  destruct (generate_sample_machines_count 3 sample_machine_draws sample_machine_draws
              (fun _ => morning) (fun _ => morning) sample_session)
    as (Hn & _ & Hi & _).
  split; [exact H1 | split; [exact (Hi 2%nat H1) | exact Hn]].
Defined.

Lemma generate_sample_logs_stored_witness :
  (4%Z, sample_log_row "M001" next_day (sample_log_draws 0))
  ∈ stored_logs sample_log_draws (fun _ => next_day) (log_seq sample_session + 1) 0
      (log_targets 1 1 sample_session)
  /\ "M001" ∈ machine_id <$> get_all_machines sample_session
  /\ (generate_sample_logs 1 1 sample_log_draws (fun _ => next_day) sample_session).2
     = 2%nat.
Proof.
  assert (H1 : (4%Z, sample_log_row "M001" next_day (sample_log_draws 0))
               ∈ stored_logs sample_log_draws (fun _ => next_day)
                   (log_seq sample_session + 1) 0 (log_targets 1 1 sample_session)).
  { apply list_elem_of_In. vm_compute. auto. }
  destruct (generate_sample_logs_stored 1 1 sample_log_draws (fun _ => next_day)
              sample_session) as (_ & Hn & _ & Hr & _).
  split; [exact H1|].
  split; [exact (proj1 (Hr _ H1))|].
  rewrite Hn. vm_compute. reflexivity.
Defined.

Example complete_dataset_run :
  let w := mkWorld sample_machine_draws sample_log_draws sample_failure_draws
             (fun _ => morning) (fun _ => evening) (fun _ => next_day) in
  let db := generate_complete_dataset 2 1 w init_database in
  machine_id <$> get_all_machines db = ["M001"; "M002"]
  /\ length (get_machine_logs (Some "M001") None None db) = 15%nat
  /\ length (get_failures None None None db) = 6%nat.
Proof. vm_compute. repeat split. Qed.
